(** * The stress-test workload driver ([stress/driver.py])

  A shallow embedding of the four functions of the driver,
  [_create_cases], [_get_compute_nodes], [_error_in_logs] and
  [bash_openstack], and the properties of the execution engine that
  follow from them.

  Python integers are unbounded and are modelled by [Z]; readings of the
  wall clock are modelled by rationals ([Q]); [str] by [string].
  Exceptions are values of [exn]; a computation that neither returns nor
  raises within the number of loop iterations it is given is [OutOfFuel]. *)

From Stdlib Require Import List ZArith QArith Qminmax Bool Lia Ascii String.
Import ListNotations.

Local Open Scope string_scope.
Local Open Scope list_scope.
Local Open Scope Z_scope.

(** ** Exceptions and results *)

(** The subclasses of Python's [Exception] that the driver and its
  collaborators raise.  [PyException msg] is [Exception(msg)]; it also
  stands for whatever the cluster clients raise (not found, transport
  failure, time-out of a pending action). *)
Inductive exn : Type :=
| AssertionError
| UnboundLocalError
| IndexError
| PyException (msg : string).

Inductive outcome (A : Type) : Type :=
| Val (a : A)
| Exc (e : exn)
| OutOfFuel.

Arguments Val {A} a.
Arguments Exc {A} e.
Arguments OutOfFuel {A}.

(** ** The workload description *)

(** A [BasherChoice] of [test_case.py], as far as the driver reads it: the
  action (here its name) and the integer [probability]. *)
Record BasherChoice : Type := mkChoice {
test_case : string;
probability : Z
}.

Definition BasherChoice_eq_dec (a b : BasherChoice) : {a = b} + {a <> b}.
Proof. decide equality; [apply Z.eq_dec | apply string_dec]. Defined.

(** ** [_create_cases] *)

Module CreateCases.

(** Python's [range(p)] for an integer [p]: empty when [p <= 0]. *)
Definition range (p : Z) : list Z := map Z.of_nat (seq 0 (Z.to_nat p)).

(** The local variables of [_create_cases].  [i] is [None] until the
    inner [for] binds it for the first time. *)
Record locals : Type := mkLocals {
  cases : list BasherChoice;
  count : Z;
  i : option Z
}.

(** [for i in range(p): cases.append(choice)] *)
Definition append_p (choice : BasherChoice) (p : Z) (l : locals) : locals :=
  fold_left
    (fun l j => mkLocals (cases l ++ [choice]) (count l) (Some j))
    (range p) l.

(** One pass of the outer [for choice in choice_spec] body. *)
Definition body (choice : BasherChoice) (l : locals) : outcome locals :=
  let p := probability choice in
  let l1 := append_p choice p l in
  match i l1 with
  | None => Exc UnboundLocalError                       (* i = i + p *)
  | Some iv => Val (mkLocals (cases l1) (count l1 + p) (Some (iv + p)))
  end.

Fixpoint loop (choice_spec : list BasherChoice) (l : locals) : outcome locals :=
  match choice_spec with
  | [] => Val l
  | choice :: rest =>
      match body choice l with
      | Val l' => loop rest l'
      | Exc e => Exc e
      | OutOfFuel => OutOfFuel
      end
  end.

Definition _create_cases (choice_spec : list BasherChoice)
  : outcome (list BasherChoice) :=
  match loop choice_spec (mkLocals [] 0 None) with
  | Val l => if count l =? 100 then Val (cases l) else Exc AssertionError
  | Exc e => Exc e
  | OutOfFuel => OutOfFuel
  end.

(** What the specification asks of a workload description. *)
Definition sum_weights (choice_spec : list BasherChoice) : Z :=
  fold_right (fun c acc => probability c + acc) 0 choice_spec.

Definition expand (choice_spec : list BasherChoice) : list BasherChoice :=
  flat_map (fun c => repeat c (Z.to_nat (probability c))) choice_spec.

Definition sum_positive (choice_spec : list BasherChoice) : Z :=
  fold_right (fun c acc => Z.max 0 (probability c) + acc) 0 choice_spec.

End CreateCases.

(** ** Python strings *)

Module Py.

(** The characters [str.split()] treats as separators. *)
Definition is_space (c : ascii) : bool :=
  let n := nat_of_ascii c in
  (Nat.eqb n 32 || (Nat.leb 9 n && Nat.leb n 13))%bool.

(** [s.split(sep)] for a one-character separator: never empty. *)
Fixpoint split_on (sep : ascii) (s : string) : list string :=
  match s with
  | EmptyString => [EmptyString]
  | String c rest =>
      if Ascii.eqb c sep then EmptyString :: split_on sep rest
      else match split_on sep rest with
           | w :: ws => String c w :: ws
           | [] => [String c EmptyString]
           end
  end.

(** [s.split()]: the maximal runs of non-space characters. *)
Fixpoint split (s : string) : list string :=
  match s with
  | EmptyString => []
  | String c rest =>
      if is_space c then split rest
      else
        match rest with
        | EmptyString => [String c EmptyString]
        | String c' _ =>
            if is_space c' then String c EmptyString :: split rest
            else match split rest with
                 | w :: ws => String c w :: ws
                 | [] => [String c EmptyString]
                 end
        end
  end.

(** [seq[k]] for [0 <= k]. *)
Definition index {A : Type} (seq : list A) (k : nat) : outcome A :=
  match nth_error seq k with
  | Some a => Val a
  | None => Exc IndexError
  end.

Definition newline : ascii := "010"%char.
Definition dquote : string := String "034"%char EmptyString.

End Py.

(** ** The collaborators and the effects of a run *)

(** What a call of a collaborator gives back. *)
Inductive answer (A : Type) : Type :=
| Returned (a : A)
| Raised (e : exn).

Arguments Returned {A} a.
Arguments Raised {A} e.

(** A step of the driver runs in a world [W] (the cluster, its clients, the
    clock, the random generator, the pending actions' own state), may raise,
    and leaves the list of the calls it made, oldest first. *)
Record Reply (W E A : Type) : Type := mkReply {
  result : outcome A;
  world : W;
  calls : list E
}.

Arguments mkReply {W E A} result world calls.
Arguments result {W E A} r.
Arguments world {W E A} r.
Arguments calls {W E A} r.

Definition M (W E A : Type) : Type := W -> Reply W E A.

Definition ret {W E A : Type} (a : A) : M W E A :=
  fun w => mkReply (Val a) w [].

Definition raise {W E A : Type} (e : exn) : M W E A :=
  fun w => mkReply (Exc e) w [].

Definition out_of_fuel {W E A : Type} : M W E A :=
  fun w => mkReply OutOfFuel w [].

Definition bind {W E A B : Type} (m : M W E A) (k : A -> M W E B) : M W E B :=
  fun w =>
    let r := m w in
    match result r with
    | Val a =>
        let r' := k a (world r) in
        mkReply (result r') (world r') (calls r ++ calls r')
    | Exc e => mkReply (Exc e) (world r) (calls r)
    | OutOfFuel => mkReply OutOfFuel (world r) (calls r)
    end.

(** A pure computation that may raise, run inside a step. *)
Definition lift {W E A : Type} (o : outcome A) : M W E A :=
  fun w => mkReply o w [].

Declare Scope driver_scope.
Delimit Scope driver_scope with driver.

Notation "x <- m ;; k" := (bind m (fun x => k))
  (at level 61, m at next level, right associativity) : driver_scope.
Notation "m ;; k" := (bind m (fun _ => k))
  (at level 61, right associativity) : driver_scope.

(** [for x in xs: body x] *)
Fixpoint for_each {W E X : Type} (xs : list X) (body : X -> M W E unit)
  : M W E unit :=
  match xs with
  | [] => ret tt
  | x :: rest => bind (body x) (fun _ => for_each rest body)
  end.

Definition Qlt_bool (x y : Q) : bool := negb (Qle_bool y x).

(** What the driver reads of its configuration. *)
Record StressConfig : Type := mkStressConfig {
  host_private_key_path : option string;
  host_admin_user : option string;
  nova_logdir : string;
  max_instances : Z
}.

Record Manager : Type := mkManager {
  stress_config : StressConfig;      (* StressConfig(manager.config._conf) *)
  identity_host : string             (* manager.config.identity.host *)
}.

(** A [datetime.timedelta]; the driver reads its [seconds] field only. *)
Record timedelta : Type := mkTimedelta {
  days : Z;
  seconds : Z
}.

(** The keyword arguments of [bash_openstack]; [None] is an absent key. *)
Record Kwargs : Type := mkKwargs {
  kw_duration : option timedelta;
  kw_seed : option Z;
  kw_sleep_time : option Q;
  kw_max_vms : option Z;
  kw_test_name : option string
}.

(** An entry of [state.get_instances()]: the key, and the value, which is
    either falsy or a pair of the server's id and its status. *)
Definition instance : Type := (string * option (string * string))%type.

(** ** The driver *)

Section Driver.

Variable World : Type.
(** The pending actions that [invoke] hands back (objects with a [retry]
    method). *)
Variable Handle : Type.

(** The calls of a run that the specification speaks about. *)
Inductive Event : Type :=
| EvChoice                       (* random.choice(cases) *)
| EvInvoke (c : BasherChoice)    (* case.invoke(manager, state) *)
| EvRetry (h : Handle)           (* v.retry() *)
| EvLogCheck                     (* _error_in_logs(...) is entered *)
| EvSsh (node : string)          (* utils.util.ssh(..., node, ...) *)
| EvSleep (t : Q)                (* time.sleep(t) *)
| EvDeleteServer (id : string)   (* servers_client.delete_server(id) *)
| EvGetServer (id : string)      (* servers_client.get_server(id) *)
| EvForget (id : string)         (* state.delete_instance_state(id) *)
| EvExecuteOnAll (nodes : list string) (command : string).
                                 (* utils.util.execute_on_all(...) *)

(** The collaborators, none of which is defined in [driver.py].
    [ssh_nocheck] is [utils.util.ssh(..., check=False)], which returns the
    output whatever the exit status of the remote command. *)
Record Env : Type := mkEnv {
  time_time : World -> Q * World;
  time_sleep : Q -> World -> World;
  random_seed : option Z -> World -> World;
  random_below : nat -> World -> nat * World;
  ssh : option string -> option string -> string -> string ->
        World -> answer string * World;
  ssh_nocheck : option string -> option string -> string -> string ->
                World -> string * World;
  execute_on_all : option string -> option string -> list string -> string ->
                   World -> answer unit * World;
  invoke : BasherChoice -> World -> answer (option Handle) * World;
  retry : Handle -> World -> answer bool * World;
  State_new : Z -> World -> World;
  get_instances : World -> list instance * World;
  delete_instance_state : string -> World -> World;
  delete_server : string -> World -> answer unit * World;
  get_server : string -> World -> answer unit * World
}.

Variable env : Env.

Definition Step (A : Type) : Type := M World Event A.

Local Open Scope driver_scope.

(** *** Calls of the collaborators *)

Definition of_answer {A : Type} (a : answer A) : outcome A :=
  match a with
  | Returned x => Val x
  | Raised e => Exc e
  end.

Definition call {A : Type} (ev : list Event) (f : World -> answer A * World)
  : Step A :=
  fun w => let (a, w') := f w in mkReply (of_answer a) w' ev.

Definition call_total {A : Type} (ev : list Event) (f : World -> A * World)
  : Step A :=
  fun w => let (a, w') := f w in mkReply (Val a) w' ev.

Definition update (ev : list Event) (f : World -> World) : Step unit :=
  fun w => mkReply (Val tt) (f w) ev.

(** [try: m  except Exception: ...]: the exception, if any, as a value. *)
Definition try_ {A : Type} (m : Step A) : Step (answer A) :=
  fun w =>
    let r := m w in
    match result r with
    | Val a => mkReply (Val (Returned a)) (world r) (calls r)
    | Exc e => mkReply (Val (Raised e)) (world r) (calls r)
    | OutOfFuel => mkReply OutOfFuel (world r) (calls r)
    end.

Definition now : Step Q := call_total [] (time_time env).
Definition sleep (t : Q) : Step unit := update [EvSleep t] (time_sleep env t).

(** [random.choice(seq)] *)
Definition random_choice {A : Type} (seq : list A) : Step A :=
  match seq with
  | [] => fun w => mkReply (Exc IndexError) w [EvChoice]
  | _ :: _ =>
      k <- call_total [EvChoice] (random_below env (List.length seq)) ;;
      lift (Py.index seq (k mod List.length seq)%nat)
  end.

(** *** [_get_compute_nodes] *)

(** The body of [for line in lines]. *)
Fixpoint scan_lines (lines nodes : list string) : outcome (list string) :=
  match lines with
  | [] => Val nodes
  | line :: rest =>
      let words := Py.split line in
      if (0 <? List.length words)%nat then
        match Py.index words 4 with
        | Val w4 =>
            if String.eqb w4 ":-)" then
              match Py.index words 1 with
              | Val w1 => scan_lines rest (nodes ++ [w1])
              | Exc e => Exc e
              | OutOfFuel => OutOfFuel
              end
            else scan_lines rest nodes
        | Exc e => Exc e
        | OutOfFuel => OutOfFuel
        end
      else scan_lines rest nodes
  end.

Definition _get_compute_nodes (keypath user : option string)
  (controller : string) : Step (list string) :=
  match keypath, user with
  | Some _, Some _ =>
      out <- call [EvSsh controller]
               (ssh env keypath user controller
                  "nova-manage service list | grep ^nova-compute") ;;
      lift (scan_lines (Py.split_on Py.newline out) [])
  | _, _ => ret []
  end.

(** *** [_error_in_logs] *)

Definition grep_command (logdir : string) : string :=
  ("egrep " ++ Py.dquote ++ "ERROR\|TRACE" ++ Py.dquote ++ " "
   ++ logdir ++ "/*.log")%string.

Fixpoint grep_nodes (keypath user : option string) (grep : string)
  (nodes : list string) : Step bool :=
  match nodes with
  | [] => ret false
  | node :: rest =>
      errors <- call_total [EvSsh node]
                  (ssh_nocheck env keypath user node grep) ;;
      if (0 <? String.length errors)%nat then ret true
      else grep_nodes keypath user grep rest
  end.

Definition _error_in_logs (keypath : option string) (logdir : string)
  (user : option string) (nodes : list string) : Step bool :=
  update [EvLogCheck] (fun w => w) ;;
  grep_nodes keypath user (grep_command logdir) nodes.

(** *** [bash_openstack] *)

(** The locals of [bash_openstack] that the loop and the cleanup read and
    never assign. *)
Record Frame : Type := mkFrame {
  keypath : option string;
  user : option string;
  logdir : string;
  computes : list string;
  cases : list BasherChoice;
  test_end_time : Q;
  sleep_time : Q
}.

(** The locals that the [while True] loop assigns. *)
Record Loop : Type := mkLoop {
  retry_list : list Handle;
  last_retry : Q;
  cooldown : bool;
  logcheck_count : Z;
  test_succeeded : bool
}.

(** How a pass of the loop body ends: at its last line, or at a [break]. *)
Inductive Next : Type :=
| Continue (s : Loop)
| Break (s : Loop).

Definition error_in_logs (f : Frame) : Step bool :=
  _error_in_logs (keypath f) (logdir f) (user f) (computes f).

(** Lines 147-156: one action is drawn and invoked, or cooldown begins. *)
Definition inject (f : Frame) (s : Loop) : Step Loop :=
  if negb (cooldown s) then
    t <- now ;;
    if Qlt_bool t (test_end_time f) then
      case <- random_choice (cases f) ;;
      r <- call [EvInvoke case] (invoke env case) ;;
      match r with
      | Some h =>
          ret (mkLoop (retry_list s ++ [h]) (last_retry s) (cooldown s)
                 (logcheck_count s) (test_succeeded s))
      | None => ret s
      end
    else
      ret (mkLoop (retry_list s) (last_retry s) true
             (logcheck_count s) (test_succeeded s))
  else ret s.

(** Lines 165-167: [for v in retry_list: if not v.retry(): ...append(v)]. *)
Fixpoint drain (retry_list new_retry_list : list Handle)
  : Step (list Handle) :=
  match retry_list with
  | [] => ret new_retry_list
  | v :: rest =>
      r <- call [EvRetry v] (retry env v) ;;
      drain rest (if negb r then new_retry_list ++ [v] else new_retry_list)
  end.

(** [n] retry passes in a row over a pool. *)
Fixpoint drain_passes (n : nat) (pool : list Handle) : Step (list Handle) :=
  match n with
  | O => ret pool
  | S n' => bind (drain pool []) (drain_passes n')
  end.

(** Lines 162-169. *)
Definition retry_verifications (s : Loop) : Step Loop :=
  t <- now ;;
  if Qlt_bool 5 (t - last_retry s) then
    new_retry_list <- drain (retry_list s) [] ;;
    t' <- now ;;
    ret (mkLoop new_retry_list t' (cooldown s)
           (logcheck_count s) (test_succeeded s))
  else ret s.

(** Lines 172-179. *)
Definition check_logs (f : Frame) (s : Loop) : Step Next :=
  if 100 <? logcheck_count s then
    e <- error_in_logs f ;;
    if e : bool then
      ret (Break (mkLoop (retry_list s) (last_retry s) (cooldown s)
                    (logcheck_count s) false))
    else
      ret (Continue (mkLoop (retry_list s) (last_retry s) (cooldown s)
                       0 (test_succeeded s)))
  else
    ret (Continue (mkLoop (retry_list s) (last_retry s) (cooldown s)
                     (logcheck_count s + 1) (test_succeeded s))).

(** Lines 147-170: the body of [while True] down to [time.sleep]; it ends
    at the [break] of line 160 or goes on to the log check. *)
Definition upto_sleep (f : Frame) (s : Loop) : Step Next :=
  s1 <- inject f s ;;
  if (cooldown s1 && Nat.eqb (List.length (retry_list s1)) 0)%bool then
    e <- error_in_logs f ;;
    ret (Break (if e : bool
                then mkLoop (retry_list s1) (last_retry s1) (cooldown s1)
                       (logcheck_count s1) false
                else s1))
  else
    s2 <- retry_verifications s1 ;;
    sleep (sleep_time f) ;;
    ret (Continue s2).

(** Lines 147-179: the body of [while True]. *)
Definition iteration (f : Frame) (s : Loop) : Step Next :=
  n <- upto_sleep f s ;;
  match n with
  | Break s' => ret (Break s')
  | Continue s2 => check_logs f s2
  end.

Fixpoint while_true (fuel : nat) (f : Frame) (s : Loop) : Step Loop :=
  match fuel with
  | O => out_of_fuel
  | S fuel' =>
      n <- iteration f s ;;
      match n with
      | Continue s' => while_true fuel' f s'
      | Break s' => ret s'
      end
  end.

(** Lines 190-199: the loop that waits for one server to go away.  [i] is
    the local of that name. *)
Fixpoint wait_killed (fuel : nat) (f : Frame) (kill_id : string) (i : Z)
  : Step unit :=
  match fuel with
  | O => out_of_fuel
  | S fuel' =>
      r <- try_ (call [EvGetServer kill_id] (get_server env kill_id)) ;;
      match r with
      | Raised _ => ret tt                                        (* break *)
      | Returned _ =>
          let i := i + 1 in
          if 60 <? i then
            error_in_logs f ;;
            raise (PyException "Cleanup timed out")
          else
            sleep 1%Q ;;
            wait_killed fuel' f kill_id i
      end
  end.

(** The passes that the waiting loop can make before it must have raised
    (lemma [wait_killed_from]). *)
Definition poll_budget : nat := 61.

(** Line 183. *)
Definition active_vms (vms : list instance) : list (string * string) :=
  flat_map
    (fun kv =>
       match snd kv with
       | Some (id, status) =>
           if String.eqb status "ACTIVE" then [(id, status)] else []
       | None => []
       end)
    vms.

(** Lines 184-185. *)
Definition delete_all (targets : list (string * string)) : Step unit :=
  for_each targets
    (fun target =>
       call [EvDeleteServer (fst target)] (delete_server env (fst target))).

(** Lines 187-201. *)
Definition confirm_killed (f : Frame) (targets : list (string * string))
  : Step unit :=
  for_each targets
    (fun target =>
       let kill_id := fst target in
       wait_killed poll_budget f kill_id 0 ;;
       update [EvForget kill_id] (delete_instance_state env kill_id)).

(** Lines 181-201. *)
Definition cleanup (f : Frame) : Step unit :=
  vms <- call_total [] (get_instances env) ;;
  let targets := active_vms vms in
  delete_all targets ;;
  confirm_killed f targets.

(** Lines 181-207. *)
Definition finish (f : Frame) (s : Loop) : Step bool :=
  cleanup f ;;
  ret (test_succeeded s).

(** Lines 146-207, from the loop state [s]. *)
Definition run_loop (fuel : nat) (f : Frame) (s : Loop) : Step bool :=
  bind (while_true fuel f s) (finish f).

Definition bash_openstack (fuel : nat) (manager : Manager)
  (choice_spec : list BasherChoice) (kwargs : Kwargs) : Step bool :=
  let conf := stress_config manager in
  let duration :=
    match kw_duration kwargs with Some d => d | None => mkTimedelta 0 10 end in
  let seed := kw_seed kwargs in
  let sleep_time :=
    ((match kw_sleep_time kwargs with Some t => t | None => 3000%Q end)
     / 1000)%Q in
  let max_vms :=
    match kw_max_vms kwargs with Some m => m | None => max_instances conf end in
  let keypath := host_private_key_path conf in
  let user := host_admin_user conf in
  let logdir := nova_logdir conf in
  computes <- _get_compute_nodes keypath user (identity_host manager) ;;
  call [EvExecuteOnAll computes ("rm -f " ++ logdir ++ "/*.log")%string]
    (execute_on_all env keypath user computes
       ("rm -f " ++ logdir ++ "/*.log")%string) ;;
  update [] (random_seed env seed) ;;
  cases <- lift (CreateCases._create_cases choice_spec) ;;
  t0 <- now ;;
  let test_end_time := (t0 + inject_Z (seconds duration))%Q in
  update [] (State_new env max_vms) ;;
  last_retry <- now ;;
  run_loop fuel
    (mkFrame keypath user logdir computes cases test_end_time sleep_time)
    (mkLoop [] last_retry false 0 true).

End Driver.

Arguments time_time {World Handle} e.
Arguments time_sleep {World Handle} e.
Arguments random_seed {World Handle} e.
Arguments random_below {World Handle} e.
Arguments ssh {World Handle} e.
Arguments ssh_nocheck {World Handle} e.
Arguments execute_on_all {World Handle} e.
Arguments invoke {World Handle} e.
Arguments retry {World Handle} e.
Arguments State_new {World Handle} e.
Arguments get_instances {World Handle} e.
Arguments delete_instance_state {World Handle} e.
Arguments delete_server {World Handle} e.
Arguments get_server {World Handle} e.
Arguments EvChoice {Handle}.
Arguments EvInvoke {Handle} c.
Arguments EvRetry {Handle} h.
Arguments EvLogCheck {Handle}.
Arguments EvSsh {Handle} node.
Arguments EvSleep {Handle} t.
Arguments EvDeleteServer {Handle} id.
Arguments EvGetServer {Handle} id.
Arguments EvForget {Handle} id.
Arguments EvExecuteOnAll {Handle} nodes command.
Arguments mkLoop {Handle} retry_list last_retry cooldown logcheck_count
  test_succeeded.
Arguments retry_list {Handle} l.
Arguments last_retry {Handle} l.
Arguments cooldown {Handle} l.
Arguments logcheck_count {Handle} l.
Arguments test_succeeded {Handle} l.
Arguments Continue {Handle} s.
Arguments Break {Handle} s.
Arguments of_answer {A} a.
Arguments call {World Handle A} ev f.
Arguments call_total {World Handle A} ev f.
Arguments update {World Handle} ev f.
Arguments try_ {World Handle A} m.
Arguments now {World Handle} env.
Arguments sleep {World Handle} env t.
Arguments random_choice {World Handle} env {A} seq.
Arguments _get_compute_nodes {World Handle} env keypath user controller.
Arguments grep_nodes {World Handle} env keypath user grep nodes.
Arguments _error_in_logs {World Handle} env keypath logdir user nodes.
Arguments error_in_logs {World Handle} env f.
Arguments inject {World Handle} env f s.
Arguments drain {World Handle} env retry_list new_retry_list.
Arguments drain_passes {World Handle} env n pool.
Arguments retry_verifications {World Handle} env s.
Arguments check_logs {World Handle} env f s.
Arguments upto_sleep {World Handle} env f s.
Arguments iteration {World Handle} env f s.
Arguments while_true {World Handle} env fuel f s.
Arguments wait_killed {World Handle} env fuel f kill_id i.
Arguments delete_all {World Handle} env targets.
Arguments confirm_killed {World Handle} env f targets.
Arguments cleanup {World Handle} env f.
Arguments finish {World Handle} env f s.
Arguments run_loop {World Handle} env fuel f s.
Arguments bash_openstack {World Handle} env fuel manager choice_spec kwargs.

(** ** Reading the calls of a run *)

Definition is_action {Handle : Type} (e : Event Handle) : bool :=
  match e with
  | EvChoice | EvInvoke _ => true
  | _ => false
  end.

Definition is_invoke {Handle : Type} (e : Event Handle) : bool :=
  match e with EvInvoke _ => true | _ => false end.

Definition is_retry {Handle : Type} (e : Event Handle) : bool :=
  match e with EvRetry _ => true | _ => false end.

Definition is_logcheck {Handle : Type} (e : Event Handle) : bool :=
  match e with EvLogCheck => true | _ => false end.

Definition is_ssh {Handle : Type} (e : Event Handle) : bool :=
  match e with EvSsh _ => true | _ => false end.

Definition is_sleep {Handle : Type} (e : Event Handle) : bool :=
  match e with EvSleep _ => true | _ => false end.

Definition is_get_server {Handle : Type} (id : string) (e : Event Handle)
  : bool :=
  match e with EvGetServer id' => String.eqb id id' | _ => false end.

Definition is_cleanup {Handle : Type} (e : Event Handle) : bool :=
  match e with
  | EvDeleteServer _ | EvGetServer _ | EvForget _ => true
  | _ => false
  end.

(** How many of the calls satisfy [p]. *)
Definition count_calls {E : Type} (p : E -> bool) (l : list E) : nat :=
  List.length (filter p l).

(** [without p P m]: the step [m] makes no call that [p] selects, and the
    value it returns, if it returns one, satisfies [P]. *)
Definition without {W E A : Type} (p : E -> bool) (P : A -> Prop)
  (m : M W E A) : Prop :=
  forall w : W,
    Forall (fun e => p e = false) (calls (m w))
    /\ forall a, result (m w) = Val a -> P a.

Definition in_cooldown {Handle : Type} (n : Next Handle) : Prop :=
  match n with
  | Continue s | Break s => cooldown s = true
  end.

(** ** Looking for a server

    [observed env n id w]: the next [n] looks for the server [id], each
    followed by the sleep of one second, all find it.  [after_polls] is the
    world after them and [poll_calls] the calls they make. *)

Definition returned {A : Type} (a : answer A) : bool :=
  match a with Returned _ => true | Raised _ => false end.

Fixpoint after_polls {World Handle : Type} (env : Env World Handle)
  (n : nat) (id : string) (w : World) : World :=
  match n with
  | O => w
  | S n' =>
      after_polls env n' id (time_sleep env 1%Q (snd (get_server env id w)))
  end.

Fixpoint observed {World Handle : Type} (env : Env World Handle)
  (n : nat) (id : string) (w : World) : bool :=
  match n with
  | O => true
  | S n' =>
      (returned (fst (get_server env id w))
       && observed env n' id
            (time_sleep env 1%Q (snd (get_server env id w))))%bool
  end.

Fixpoint poll_calls {Handle : Type} (n : nat) (id : string)
  : list (Event Handle) :=
  match n with
  | O => []
  | S n' => EvGetServer id :: EvSleep 1%Q :: poll_calls n' id
  end.

(** ** Quiet nodes and granted deletions

    [quiet_reads ... nodes w]: the grep prints nothing on any of [nodes],
    read in their order from the world [w]; the result is the world after
    the last read.  [deletes_return env ids w]: the delete requests for
    [ids], made in their order from [w], all return. *)

Fixpoint quiet_reads {World Handle : Type} (env : Env World Handle)
  (key usr : option string) (grep : string) (nodes : list string)
  (w : World) : option World :=
  match nodes with
  | [] => Some w
  | node :: rest =>
      let (errors, w1) := ssh_nocheck env key usr node grep w in
      match errors with
      | EmptyString => quiet_reads env key usr grep rest w1
      | String _ _ => None
      end
  end.

Fixpoint deletes_return {World Handle : Type} (env : Env World Handle)
  (ids : list string) (w : World) : option World :=
  match ids with
  | [] => Some w
  | id :: rest =>
      match delete_server env id w with
      | (Returned _, w1) => deletes_return env rest w1
      | (Raised _, _) => None
      end
  end.

(** [vanish env ids w w' polls]: looked for in the order of [ids], from
    the world [w], each server is found [k] times for some [k] of at most
    60, with a sleep of one second after each of these looks, and the look
    after them raises; the server is then removed from the state.  [polls]
    are the calls made on the way and [w'] is the world at the end. *)
Inductive vanish {World Handle : Type} (env : Env World Handle)
  : list string -> World -> World -> list (Event Handle) -> Prop :=
| vanish_nil (w : World) : vanish env [] w w []
| vanish_cons (id : string) (rest : list string) (k : nat) (e : exn)
    (w w1 w' : World) (polls : list (Event Handle)) :
    (k <= 60)%nat ->
    observed env k id w = true ->
    get_server env id (after_polls env k id w) = (Raised e, w1) ->
    vanish env rest (delete_instance_state env id w1) w' polls ->
    vanish env (id :: rest) w w'
      (poll_calls k id ++ EvGetServer id :: EvForget id :: polls).

(** ** Pending actions that count down

    [left h w] is the number of [retry] calls that the pending action [h]
    still needs in the world [w]: the call that brings it to zero answers
    [True], the calls before it answer [False], and a call on one action
    leaves the others of the pool alone. *)
Definition counts_down {World Handle : Type} (env : Env World Handle)
  (left : Handle -> World -> nat) (pool : list Handle) : Prop :=
  forall (h : Handle) (w : World),
    In h pool ->
    fst (retry env h w) = Returned (left h w <=? 1)%nat
    /\ left h (snd (retry env h w)) = pred (left h w)
    /\ forall h', In h' pool -> h' <> h ->
                  left h' (snd (retry env h w)) = left h' w.

(** ** A scripted cluster

    A world in which every collaborator answers from a script; it is the
    cluster of the examples below.  Pending actions are numbered. *)

Module Mock.

(** What the collaborators will answer. *)
Record Script : Type := mkScript {
  retry_script : nat -> nat -> answer bool; (* handle, call number *)
  server_script : string -> nat -> answer unit; (* id, call number *)
  node_logs : string -> string;             (* what the grep prints *)
  service_list : answer string;             (* nova-manage's listing *)
  invoke_script : BasherChoice -> nat -> answer (option nat)
                                            (* action, draws so far *)
}.

(** What changes during a run. *)
Record World : Type := mkWorld {
  clock : Q;                                (* what [time.time()] reads *)
  retried : nat -> nat;                     (* [retry()] calls so far *)
  polled : string -> nat;                   (* [get_server] calls so far *)
  instances : list instance;
  dice : nat
}.

Definition bump {K : Type} (eqb : K -> K -> bool) (k : K) (f : K -> nat)
  : K -> nat :=
  fun k' => if eqb k k' then S (f k') else f k'.

Definition do_sleep (t : Q) (w : World) : World :=
  mkWorld (Qred (clock w + t)) (retried w) (polled w) (instances w) (dice w).

Definition do_retry (sc : Script) (h : nat) (w : World)
  : answer bool * World :=
  (retry_script sc h (retried w h),
   mkWorld (clock w) (bump Nat.eqb h (retried w)) (polled w) (instances w)
     (dice w)).

Definition do_get_server (sc : Script) (id : string) (w : World)
  : answer unit * World :=
  (server_script sc id (polled w id),
   mkWorld (clock w) (retried w) (bump String.eqb id (polled w))
     (instances w) (dice w)).

Definition do_forget (id : string) (w : World) : World :=
  mkWorld (clock w) (retried w) (polled w)
    (filter (fun kv => negb (String.eqb (fst kv) id)) (instances w))
    (dice w).

Definition do_random (n : nat) (w : World) : nat * World :=
  (dice w,
   mkWorld (clock w) (retried w) (polled w) (instances w) (S (dice w))).

Definition env (sc : Script) : Env World nat :=
  mkEnv World nat
    (fun w => (clock w, w))
    do_sleep
    (fun _ w => w)
    do_random
    (fun _ _ _ _ w => (service_list sc, w))
    (fun _ _ node _ w => (node_logs sc node, w))
    (fun _ _ _ _ w => (Returned tt, w))
    (fun c w => (invoke_script sc c (dice w), w))
    (do_retry sc)
    (fun _ w => w)
    (fun w => (instances w, w))
    do_forget
    (fun _ w => (Returned tt, w))
    (do_get_server sc).

(** The world at time [t], before any call, with the given servers. *)
Definition start (t : Q) (vms : list instance) : World :=
  mkWorld t (fun _ => O) (fun _ => O) vms O.

(** A quiet cluster: no action hands back a pending action, no pending
    action resolves, every server is gone at the first look, the logs are
    clean. *)
Definition quiet : Script :=
  mkScript (fun _ _ => Returned false)
    (fun _ _ => Raised (PyException "NotFound")) (fun _ => "")
    (Returned "") (fun _ _ => Returned None).

Definition frame (nodes : list string) (pool : list BasherChoice)
  (deadline : Q) : Frame :=
  mkFrame (Some "key") (Some "root") "/var/log/nova" nodes pool deadline
    (3000 / 1000)%Q.

End Mock.

(** [subseq l1 l2]: [l1] is [l2] with some entries left out. *)
Inductive subseq {A : Type} : list A -> list A -> Prop :=
| subseq_nil : subseq [] []
| subseq_skip (x : A) (l1 l2 : list A) : subseq l1 l2 -> subseq l1 (x :: l2)
| subseq_keep (x : A) (l1 l2 : list A) :
    subseq l1 l2 -> subseq (x :: l1) (x :: l2).

Definition is_delete_server {Handle : Type} (e : Event Handle) : bool :=
  match e with EvDeleteServer _ => true | _ => false end.

Definition is_forget {Handle : Type} (e : Event Handle) : bool :=
  match e with EvForget _ => true | _ => false end.

(** The server that a call of the servers client or of the state is
    about. *)
Definition server_of {Handle : Type} (e : Event Handle) : option string :=
  match e with
  | EvDeleteServer id | EvGetServer id | EvForget id => Some id
  | _ => None
  end.

Definition outside {Handle : Type} (ids : list string) (e : Event Handle)
  : bool :=
  match server_of e with
  | Some id => negb (existsb (String.eqb id) ids)
  | None => false
  end.

(** ** How a pass of the loop can change its state

    [D] holds of the answers that a check of the logs can give. *)

Section Transitions.

Context {Handle : Type}.
Variable D : bool -> Prop.

Definition state_of (n : Next Handle) : Loop Handle :=
  match n with Continue s | Break s => s end.

(** [test_succeeded = False] *)
Definition failed (s : Loop Handle) : Loop Handle :=
  mkLoop (retry_list s) (last_retry s) (cooldown s) (logcheck_count s) false.

(** Lines 147-156: nothing changes, or cooldown begins, or one pending
    action joins the pool. *)
Definition injected (s s1 : Loop Handle) : Prop :=
  s1 = s
  \/ (cooldown s = false
      /\ s1 = mkLoop (retry_list s) (last_retry s) true (logcheck_count s)
                (test_succeeded s))
  \/ (cooldown s = false
      /\ exists h,
           s1 = mkLoop (retry_list s ++ [h]) (last_retry s) (cooldown s)
                  (logcheck_count s) (test_succeeded s)).

(** Lines 162-169: some pending actions leave the pool, and the time of
    the last retry pass may change. *)
Definition retried (s1 s2 : Loop Handle) : Prop :=
  subseq (retry_list s2) (retry_list s1)
  /\ cooldown s2 = cooldown s1
  /\ logcheck_count s2 = logcheck_count s1
  /\ test_succeeded s2 = test_succeeded s1.

(** Lines 172-179. *)
Definition checked (s2 : Loop Handle) (n : Next Handle) : Prop :=
  (logcheck_count s2 <= 100
   /\ n = Continue (mkLoop (retry_list s2) (last_retry s2) (cooldown s2)
                      (logcheck_count s2 + 1) (test_succeeded s2)))
  \/ (100 < logcheck_count s2 /\ D false
      /\ n = Continue (mkLoop (retry_list s2) (last_retry s2) (cooldown s2)
                         0 (test_succeeded s2)))
  \/ (100 < logcheck_count s2 /\ D true /\ n = Break (failed s2)).

(** Lines 147-179. *)
Definition pass (s : Loop Handle) (n : Next Handle) : Prop :=
  exists s1,
    injected s s1
    /\ ((cooldown s1 = true /\ retry_list s1 = []
         /\ ((D false /\ n = Break s1) \/ (D true /\ n = Break (failed s1))))
        \/ (~ (cooldown s1 = true /\ retry_list s1 = [])
            /\ exists s2, retried s1 s2 /\ checked s2 n)).

End Transitions.

(** The calls that invoke an action outside [pool]. *)
Definition stray_invoke {Handle : Type} (pool : list BasherChoice)
  (e : Event Handle) : bool :=
  match e with
  | EvInvoke c => if in_dec BasherChoice_eq_dec c pool then false else true
  | _ => false
  end.

(** ** Reading a service listing *)

(** A line of one to four words: the lines at which [words[4]] fails. *)
Definition short_line (line : string) : bool :=
  let n := List.length (Py.split line) in
  (Nat.leb 1 n && Nat.leb n 4)%bool.

(** The line's fifth word is the smiley. *)
Definition reports_up (line : string) : bool :=
  String.eqb (nth 4 (Py.split line) "") ":-)".

(** The line's second word. *)
Definition listed_node (line : string) : string :=
  nth 1 (Py.split line) "".

Fixpoint no_space (s : string) : bool :=
  match s with
  | EmptyString => true
  | String c rest => (negb (Py.is_space c) && no_space rest)%bool
  end.

(** A word: not empty, no white space in it. *)
Definition clean_word (s : string) : Prop :=
  s <> EmptyString /\ no_space s = true.

(** * Properties *)

(** ** Strings *)

Example split_demo :
  Py.split "nova-compute xg11eth0 nova enabled :-) 2011-10-31 18:57:46"
  = ["nova-compute"; "xg11eth0"; "nova"; "enabled"; ":-)"; "2011-10-31";
     "18:57:46"]
  /\ Py.split "  a   b " = ["a"; "b"] /\ Py.split "" = []
  /\ Py.split_on "," "a,,b," = ["a"; ""; "b"; ""].
Proof. repeat split; reflexivity. Qed.

(** ** The action pool *)

Section CreateCasesFacts.

Import CreateCases.

Lemma append_p_fold (choice : BasherChoice) (js : list Z) (l : locals) :
  fold_left (fun l j => mkLocals (cases l ++ [choice]) (count l) (Some j)) js l
  = mkLocals (cases l ++ repeat choice (List.length js)) (count l)
      (match js with [] => i l | _ :: _ => Some (last js 0) end).
Proof.
  revert l; induction js as [|j js IH]; intro l.
  - simpl. rewrite app_nil_r. destruct l; reflexivity.
  - cbn [fold_left]. rewrite IH. cbn [cases count i List.length repeat].
    rewrite <- app_assoc. cbn [app]. f_equal.
    destruct js; reflexivity.
Qed.

Lemma range_length (p : Z) : List.length (range p) = Z.to_nat p.
Proof. unfold range. now rewrite length_map, length_seq. Qed.

Lemma range_nil (p : Z) : p <= 0 -> range p = [].
Proof.
  intro H. unfold range. replace (Z.to_nat p) with O by lia. reflexivity.
Qed.

Lemma range_last (p : Z) : 0 < p -> last (range p) 0 = p - 1.
Proof.
  intro H. unfold range.
  destruct (Z.to_nat p) as [|n] eqn:E; [lia|].
  rewrite seq_S, map_app. cbn [map]. rewrite last_last. lia.
Qed.

(** The inner loop appends [max 0 p] copies and leaves [i] at [p - 1],
    or untouched when [p <= 0]. *)
Lemma append_p_spec (choice : BasherChoice) (p : Z) (l : locals) :
  append_p choice p l
  = mkLocals (cases l ++ repeat choice (Z.to_nat p)) (count l)
      (if 0 <? p then Some (p - 1) else i l).
Proof.
  unfold append_p. rewrite append_p_fold, range_length. f_equal.
  destruct (Z.ltb_spec 0 p) as [H|H].
  - pose proof (range_length p) as L.
    destruct (range p) eqn:E; [simpl in L; lia|].
    rewrite <- E. now rewrite range_last.
  - now rewrite range_nil.
Qed.

Lemma body_bound (choice : BasherChoice) (l : locals) (iv : Z) :
  i l = Some iv ->
  exists iv',
    body choice l
    = Val (mkLocals (cases l ++ repeat choice (Z.to_nat (probability choice)))
             (count l + probability choice) (Some iv')).
Proof.
  intro Hi. unfold body. rewrite append_p_spec. cbn [i cases count].
  destruct (0 <? probability choice); [|rewrite Hi]; eexists; reflexivity.
Qed.

Lemma body_positive (choice : BasherChoice) (l : locals) :
  0 < probability choice ->
  exists iv',
    body choice l
    = Val (mkLocals (cases l ++ repeat choice (Z.to_nat (probability choice)))
             (count l + probability choice) (Some iv')).
Proof.
  intro Hp. unfold body. rewrite append_p_spec. cbn [i cases count].
  apply Z.ltb_lt in Hp. rewrite Hp. eexists; reflexivity.
Qed.

(** With [i] unbound and a weight that is not positive, [i = i + p] reads
    an unbound local. *)
Lemma body_unbound (choice : BasherChoice) (l : locals) :
  i l = None -> probability choice <= 0 ->
  body choice l = Exc UnboundLocalError.
Proof.
  intros Hi Hp. unfold body. rewrite append_p_spec. cbn [i].
  destruct (Z.ltb_spec 0 (probability choice)); [lia|]. now rewrite Hi.
Qed.

Lemma loop_bound (choice_spec : list BasherChoice) :
  forall (l : locals) (iv : Z),
    i l = Some iv ->
    exists iv',
      loop choice_spec l
      = Val (mkLocals (cases l ++ expand choice_spec)
               (count l + sum_weights choice_spec) (Some iv')).
Proof.
  induction choice_spec as [|c rest IH]; intros l iv Hi.
  - exists iv. cbn. rewrite app_nil_r, Z.add_0_r. destruct l; cbn in *.
    now subst.
  - destruct (body_bound c l iv Hi) as [iv1 Hb].
    cbn [loop]. rewrite Hb.
    match goal with
    | |- context [loop rest ?l1] =>
        destruct (IH l1 iv1 eq_refl) as [iv2 Hl]
    end.
    rewrite Hl.
    exists iv2. cbn [cases count expand flat_map sum_weights fold_right].
    rewrite <- app_assoc, Z.add_assoc. reflexivity.
Qed.

(** The pool that [_create_cases] builds when the first weight is
    positive: the expansion of the list, if the weights add up to 100. *)
Lemma create_cases_first_positive (c : BasherChoice)
  (rest : list BasherChoice) :
  0 < probability c ->
  _create_cases (c :: rest)
  = if sum_weights (c :: rest) =? 100 then Val (expand (c :: rest))
    else Exc AssertionError.
Proof.
  intro Hp. unfold _create_cases. cbn [loop].
  destruct (body_positive c (mkLocals [] 0 None) Hp) as [iv1 Hb]. rewrite Hb.
  match goal with
  | |- context [loop rest ?l] =>
      destruct (loop_bound rest l iv1 eq_refl) as [iv2 Hl]
  end.
  rewrite Hl.
  cbn [cases count app expand flat_map sum_weights fold_right].
  rewrite Z.add_0_l. reflexivity.
Qed.

(** When the first weight is zero or negative the build raises
    [UnboundLocalError], whatever follows. *)
Lemma create_cases_first_not_positive (c : BasherChoice)
  (rest : list BasherChoice) :
  probability c <= 0 ->
  _create_cases (c :: rest) = Exc UnboundLocalError.
Proof.
  intro Hp. unfold _create_cases. cbn [loop].
  now rewrite body_unbound.
Qed.

Lemma create_cases_empty : _create_cases [] = Exc AssertionError.
Proof. reflexivity. Qed.

Lemma expand_length (choice_spec : list BasherChoice) :
  Z.of_nat (List.length (expand choice_spec)) = sum_positive choice_spec.
Proof.
  induction choice_spec as [|c rest IH]; [reflexivity|].
  cbn [expand flat_map sum_positive fold_right].
  rewrite length_app, repeat_length, Nat2Z.inj_add.
  fold (expand rest). rewrite IH. fold (sum_positive rest). lia.
Qed.

Lemma sum_positive_ge (choice_spec : list BasherChoice) :
  sum_weights choice_spec <= sum_positive choice_spec.
Proof.
  induction choice_spec as [|c rest IH]; [reflexivity|].
  cbn [sum_weights sum_positive fold_right].
  fold (sum_weights rest) (sum_positive rest). lia.
Qed.

Lemma sum_positive_gt (choice_spec : list BasherChoice) :
  Exists (fun c => probability c < 0) choice_spec ->
  sum_weights choice_spec < sum_positive choice_spec.
Proof.
  induction 1 as [c rest Hc | c rest _ IH];
    cbn [sum_weights sum_positive fold_right];
    fold (sum_weights rest) (sum_positive rest).
  - pose proof (sum_positive_ge rest). lia.
  - lia.
Qed.

Lemma sum_positive_nonneg (choice_spec : list BasherChoice) :
  Forall (fun c => 0 <= probability c) choice_spec ->
  sum_positive choice_spec = sum_weights choice_spec.
Proof.
  induction 1 as [|c rest Hc _ IH]; [reflexivity|].
  cbn [sum_weights sum_positive fold_right].
  fold (sum_weights rest) (sum_positive rest). lia.
Qed.

Lemma count_occ_repeat (a c : BasherChoice) (n : nat) :
  count_occ BasherChoice_eq_dec (repeat c n) a
  = if BasherChoice_eq_dec c a then n else O.
Proof.
  induction n as [|n IH]; cbn [repeat count_occ].
  - now destruct (BasherChoice_eq_dec c a).
  - rewrite IH. now destruct (BasherChoice_eq_dec c a).
Qed.

(** In the expansion of a list without repetition every choice occurs as
    often as its weight says (not at all when the weight is negative). *)
Lemma expand_count (choice_spec : list BasherChoice) (a : BasherChoice) :
  NoDup choice_spec -> In a choice_spec ->
  count_occ BasherChoice_eq_dec (expand choice_spec) a
  = Z.to_nat (probability a).
Proof.
  induction 1 as [|c rest Hnotin Hnd IH]; intro Hin; [destruct Hin|].
  cbn [expand flat_map]. fold (expand rest).
  rewrite count_occ_app, count_occ_repeat.
  destruct (BasherChoice_eq_dec c a) as [->|Hne].
  - assert (count_occ BasherChoice_eq_dec (expand rest) a = O) as ->; [|lia].
    apply count_occ_not_In. intro Hx. apply Hnotin.
    unfold expand in Hx. apply in_flat_map in Hx as [x [Hx1 Hx2]].
    apply repeat_spec in Hx2. now subst.
  - destruct Hin as [->|Hin]; [congruence|]. now rewrite IH.
Qed.

End CreateCasesFacts.

(** The catalog invariant, for the lists on which the build gets past its
    first entry: a pool of exactly 100 entries in the order of the list,
    each choice as often as its weight. *)
Lemma create_cases_pool (c : BasherChoice) (rest : list BasherChoice) :
  0 < probability c ->
  Forall (fun x => 0 <= probability x) (c :: rest) ->
  CreateCases.sum_weights (c :: rest) = 100 ->
  CreateCases._create_cases (c :: rest) = Val (CreateCases.expand (c :: rest))
  /\ List.length (CreateCases.expand (c :: rest)) = 100%nat
  /\ (NoDup (c :: rest) ->
      forall a, In a (c :: rest) ->
        Z.of_nat (count_occ BasherChoice_eq_dec
                    (CreateCases.expand (c :: rest)) a)
        = probability a).
Proof.
  intros Hp Hall Hsum. split; [|split].
  - rewrite create_cases_first_positive by assumption.
    now rewrite Hsum.
  - apply Nat2Z.inj. rewrite expand_length, sum_positive_nonneg by assumption.
    now rewrite Hsum.
  - intros Hnd a Hin. rewrite expand_count by assumption.
    rewrite Forall_forall in Hall. specialize (Hall a Hin). lia.
Qed.

(** A list whose first weight is positive and whose weights do not add up
    to 100 is refused by the assertion. *)
Lemma create_cases_bad_sum (c : BasherChoice) (rest : list BasherChoice) :
  0 < probability c ->
  CreateCases.sum_weights (c :: rest) <> 100 ->
  CreateCases._create_cases (c :: rest) = Exc AssertionError.
Proof.
  intros Hp Hsum. rewrite create_cases_first_positive by assumption.
  destruct (Z.eqb_spec (CreateCases.sum_weights (c :: rest)) 100); congruence.
Qed.

(** C1, at the workload [(A, 0), (B, 100)]: the weights are non-negative
    integers that add up to 100, and yet [_create_cases] returns no pool.
    The inner [for i in range(0)] never binds [i], so the statement
    [i = i + p] that follows it raises [UnboundLocalError]. *)
Theorem create_cases_zero_weight_first :
  let choice_spec := [mkChoice "A" 0; mkChoice "B" 100] in
  Forall (fun c => 0 <= probability c) choice_spec
  /\ CreateCases.sum_weights choice_spec = 100
  /\ CreateCases._create_cases choice_spec = Exc UnboundLocalError.
Proof.
  cbv zeta. split; [|split].
  - repeat constructor; cbn; lia.
  - reflexivity.
  - apply create_cases_first_not_positive. cbn. lia.
Qed.

(** C9, as the code has it: when the first weight is positive, some weight
    is negative and the weights add up to 100, [_create_cases] returns a
    pool whose length is the sum of the positive weights, which is more
    than 100. *)
Theorem create_cases_negative_weight (c : BasherChoice)
  (rest : list BasherChoice) :
  0 < probability c ->
  Exists (fun x => probability x < 0) (c :: rest) ->
  CreateCases.sum_weights (c :: rest) = 100 ->
  exists pool,
    CreateCases._create_cases (c :: rest) = Val pool
    /\ Z.of_nat (List.length pool) = CreateCases.sum_positive (c :: rest)
    /\ 100 < Z.of_nat (List.length pool).
Proof.
  intros Hp Hneg Hsum. exists (CreateCases.expand (c :: rest)).
  rewrite create_cases_first_positive by assumption.
  rewrite Hsum, expand_length. repeat split.
  apply sum_positive_gt in Hneg. lia.
Qed.

Lemma create_cases_negative_weight_witness :
  exists pool,
    CreateCases._create_cases [mkChoice "A" 105; mkChoice "B" (-5)] = Val pool
    /\ Z.of_nat (List.length pool)
       = CreateCases.sum_positive [mkChoice "A" 105; mkChoice "B" (-5)]
    /\ 100 < Z.of_nat (List.length pool).
Proof.
  apply (create_cases_negative_weight (mkChoice "A" 105) [mkChoice "B" (-5)]).
  - simpl. lia.
  - apply Exists_cons_tl, Exists_cons_hd. simpl. lia.
  - reflexivity.
Defined.

(** C9 as stated fails at [(A, -5), (B, 105)]: a weight is negative, the
    weights add up to 100, and the build does not succeed. *)
Lemma create_cases_negative_first_raises :
  let choice_spec := [mkChoice "A" (-5); mkChoice "B" 105] in
  Exists (fun x => probability x < 0) choice_spec
  /\ CreateCases.sum_weights choice_spec = 100
  /\ CreateCases._create_cases choice_spec = Exc UnboundLocalError.
Proof.
  cbv zeta. split; [|split].
  - apply Exists_cons_hd. simpl. lia.
  - reflexivity.
  - reflexivity.
Qed.

(** ** Node discovery *)

Section ComputeNodes.

Variables World Handle : Type.
Variable env : Env World Handle.

Lemma index_short {A : Type} (seq : list A) (k : nat) :
  (List.length seq <= k)%nat -> Py.index seq k = Exc IndexError.
Proof.
  intro H. unfold Py.index.
  now apply nth_error_None in H as ->.
Qed.

Lemma index_long {A : Type} (seq : list A) (k : nat) :
  (k < List.length seq)%nat -> exists a, Py.index seq k = Val a.
Proof.
  intro H. unfold Py.index.
  destruct (nth_error seq k) eqn:E; [eauto|].
  apply nth_error_None in E. lia.
Qed.

(** A line of one to four words stops the scan with [IndexError],
    whatever the lines before and after it are. *)
Lemma scan_lines_short (lines : list string) :
  Exists (fun line => (1 <= List.length (Py.split line) <= 4)%nat) lines ->
  forall nodes, scan_lines lines nodes = Exc IndexError.
Proof.
  induction 1 as [line rest Hshort | line rest _ IH]; intro nodes;
    cbn [scan_lines].
  - destruct (Nat.ltb_spec 0 (List.length (Py.split line))); [|lia].
    rewrite index_short by lia. reflexivity.
  - destruct (Nat.ltb_spec 0 (List.length (Py.split line))); [|apply IH].
    destruct (Nat.le_gt_cases (List.length (Py.split line)) 4) as [Hle|Hgt].
    + rewrite index_short by lia. reflexivity.
    + destruct (index_long (Py.split line) 4) as [w4 ->]; [lia|].
      destruct (String.eqb w4 ":-)"); [|apply IH].
      destruct (index_long (Py.split line) 1) as [w1 ->]; [lia|].
      apply IH.
Qed.

(** C10: when the listing that [ssh] returns has a line of one to four
    words, [_get_compute_nodes] ends in [IndexError]. *)
Theorem get_compute_nodes_short_line
  (key usr controller out : string) (w w' : World) :
  ssh env (Some key) (Some usr) controller
    "nova-manage service list | grep ^nova-compute" w = (Returned out, w') ->
  Exists (fun line => (1 <= List.length (Py.split line) <= 4)%nat)
    (Py.split_on Py.newline out) ->
  _get_compute_nodes env (Some key) (Some usr) controller w
  = mkReply (Exc IndexError) w' [EvSsh controller].
Proof.
  intros Hssh Hshort.
  unfold _get_compute_nodes, bind, call, lift. rewrite Hssh. cbn.
  rewrite scan_lines_short by assumption. reflexivity.
Qed.

End ComputeNodes.

Definition short_listing : string :=
  String.concat (String Py.newline EmptyString)
    ["nova-compute xg11eth0 nova enabled :-) 2011-10-31 18:57:46";
     "nova-compute xg12eth0 nova"; ""].

Definition short_listing_script : Mock.Script :=
  Mock.mkScript (fun _ _ => Returned false)
    (fun _ _ => Raised (PyException "NotFound")) (fun _ => "")
    (Returned short_listing) (fun _ _ => Returned None).

Lemma get_compute_nodes_short_line_witness :
  _get_compute_nodes (Mock.env short_listing_script) (Some "key")
    (Some "root") "controller" (Mock.start 0 [])
  = mkReply (Exc IndexError) (Mock.start 0 []) [EvSsh "controller"].
Proof.
  apply (get_compute_nodes_short_line Mock.World nat
           (Mock.env short_listing_script)
           "key" "root" "controller" short_listing).
  - reflexivity.
  - apply Exists_cons_tl, Exists_cons_hd. vm_compute. lia.
Defined.

(** ** Steps *)

Section StepFacts.

Context {W E : Type}.

Lemma reply_eta {A : Type} (r : Reply W E A) :
  r = mkReply (result r) (world r) (calls r).
Proof. now destruct r. Qed.

Lemma bind_val {A B : Type} (m : M W E A) (k : A -> M W E B)
  (w w1 : W) (a : A) (ev1 : list E) :
  m w = mkReply (Val a) w1 ev1 ->
  bind m k w
  = mkReply (result (k a w1)) (world (k a w1)) (ev1 ++ calls (k a w1)).
Proof. intro H. unfold bind. now rewrite H. Qed.

Lemma bind_exc {A B : Type} (m : M W E A) (k : A -> M W E B)
  (w w1 : W) (e : exn) (ev1 : list E) :
  m w = mkReply (Exc e) w1 ev1 ->
  bind m k w = mkReply (Exc e) w1 ev1.
Proof. intro H. unfold bind. now rewrite H. Qed.

Lemma bind_ret {A B : Type} (a : A) (k : A -> M W E B) (w : W) :
  bind (ret a) k w = k a w.
Proof. unfold bind, ret. cbn. now rewrite <- reply_eta. Qed.

Lemma bind_assoc {A B C : Type} (m : M W E A) (k : A -> M W E B)
  (k' : B -> M W E C) (w : W) :
  bind (bind m k) k' w = bind m (fun a => bind (k a) k') w.
Proof.
  unfold bind. destruct (m w) as [[a| |] w1 ev1]; cbn; try reflexivity.
  destruct (k a w1) as [[b| |] w2 ev2]; cbn; try reflexivity.
  now rewrite app_assoc.
Qed.

Lemma bind_ext {A B : Type} (m : M W E A) (k k' : A -> M W E B) (w : W) :
  (forall a w1, k a w1 = k' a w1) -> bind m k w = bind m k' w.
Proof.
  intro H. unfold bind. destruct (m w) as [[a| |] w1 ev1]; cbn;
    now rewrite ?H.
Qed.

Lemma for_each_app {X : Type} (xs ys : list X) (body : X -> M W E unit)
  (w : W) :
  for_each (xs ++ ys) body w
  = bind (for_each xs body) (fun _ => for_each ys body) w.
Proof.
  revert w. induction xs as [|x xs IH]; intro w; cbn [app for_each].
  - now rewrite bind_ret.
  - rewrite bind_assoc. apply bind_ext. intros _ w1. apply IH.
Qed.

Lemma count_calls_app (p : E -> bool) (l1 l2 : list E) :
  count_calls p (l1 ++ l2) = (count_calls p l1 + count_calls p l2)%nat.
Proof. unfold count_calls. now rewrite filter_app, length_app. Qed.

Lemma count_calls_cons (p : E -> bool) (e : E) (l : list E) :
  count_calls p (e :: l)
  = ((if p e then 1 else 0) + count_calls p l)%nat.
Proof. unfold count_calls. cbn [filter]. now destruct (p e). Qed.

Lemma count_calls_none (p : E -> bool) (l : list E) :
  Forall (fun e => p e = false) l -> count_calls p l = O.
Proof.
  unfold count_calls. induction 1 as [|e l He _ IH]; [reflexivity|].
  cbn. now rewrite He.
Qed.

End StepFacts.

(** ** The verification pool *)

Section Pool.

Variables World Handle : Type.
Variable env : Env World Handle.

Lemma drain_cons (v : Handle) (rest acc : list Handle) (w w1 : World)
  (b : bool) :
  retry env v w = (Returned b, w1) ->
  drain env (v :: rest) acc w
  = let r := drain env rest (if negb b then acc ++ [v] else acc) w1 in
    mkReply (result r) (world r) (EvRetry v :: calls r).
Proof.
  intro H. cbn [drain]. unfold bind, call. rewrite H. reflexivity.
Qed.

Lemma drain_raises (v : Handle) (rest acc : list Handle) (w w1 : World)
  (e : exn) :
  retry env v w = (Raised e, w1) ->
  drain env (v :: rest) acc w = mkReply (Exc e) w1 [EvRetry v].
Proof.
  intro H. cbn [drain]. unfold bind, call. rewrite H. reflexivity.
Qed.

(** A pass stops at the first handle whose [retry] raises: the handles
    behind it are not retried and the exception is the result. *)
Lemma drain_stops (pre : list Handle) :
  forall (h : Handle) (post acc kept : list Handle) (w w1 w2 : World)
         (ev1 : list (Event Handle)) (e : exn),
    drain env pre acc w = mkReply (Val kept) w1 ev1 ->
    retry env h w1 = (Raised e, w2) ->
    drain env (pre ++ h :: post) acc w
    = mkReply (Exc e) w2 (ev1 ++ [EvRetry h]).
Proof.
  induction pre as [|v pre IH]; intros h post acc kept w w1 w2 ev1 e Hpre Hh.
  - cbn in Hpre. injection Hpre as _ <- <-. cbn [app].
    now apply drain_raises.
  - cbn [app]. destruct (retry env v w) as [[b|e'] wv] eqn:Hv.
    + rewrite (drain_cons _ _ _ _ _ _ Hv) in Hpre.
      rewrite (drain_cons _ _ _ _ _ _ Hv). cbv zeta in *.
      injection Hpre as Hr Hw Hc.
      rewrite (IH h post _ kept wv w1 w2 (calls (drain env pre
                 (if negb b then acc ++ [v] else acc) wv)) e); [|
        rewrite <- Hr, <- Hw; apply reply_eta | assumption].
      cbn. now rewrite <- Hc.
    + rewrite (drain_raises _ _ _ _ _ _ Hv) in Hpre. discriminate.
Qed.

(** *** Counting down *)

Variable left : Handle -> World -> nat.
Variable pool : list Handle.

Hypothesis Hcount : counts_down env left pool.

Lemma drain_counts (todo : list Handle) :
  forall (acc : list Handle) (w : World),
    NoDup todo -> incl todo pool ->
    let r := drain env todo acc w in
    result r = Val (acc ++ filter (fun h => 2 <=? left h w)%nat todo)
    /\ (forall h, In h todo -> left h (world r) = pred (left h w))
    /\ (forall h, In h pool -> ~ In h todo -> left h (world r) = left h w).
Proof.
  induction todo as [|v rest IH]; intros acc w Hnd Hincl; cbv zeta.
  - cbn. rewrite app_nil_r. repeat split; intros; tauto.
  - inversion Hnd as [|? ? Hnotin Hnd']; subst.
    assert (In v pool) as Hv by (apply Hincl; now left).
    assert (incl rest pool) as Hincl'
      by (intros x Hx; apply Hincl; now right).
    destruct (Hcount v w Hv) as (Hans & Hself & Hothers).
    destruct (retry env v w) as [a wv] eqn:Hr. cbn [fst snd] in *. subst a.
    rewrite (drain_cons _ _ _ _ _ _ Hr). cbv zeta. cbn [result world].
    destruct (IH (if negb (left v w <=? 1)%nat then acc ++ [v] else acc)
                wv Hnd' Hincl') as (Hres & Hin & Hout).
    assert (forall h, In h rest -> left h wv = left h w) as Hrest.
    { intros h Hh. apply Hothers; [now apply Hincl'|].
      intros ->. contradiction. }
    split; [|split].
    + rewrite Hres. cbn [filter].
      assert (filter (fun h => 2 <=? left h wv)%nat rest
              = filter (fun h => 2 <=? left h w)%nat rest) as ->.
      { apply filter_ext_in. intros h Hh. now rewrite Hrest. }
      destruct (Nat.leb_spec (left v w) 1), (Nat.leb_spec 2 (left v w));
        try lia; cbn [negb]; [reflexivity|].
      now rewrite <- app_assoc.
    + intros h [<-|Hh].
      * rewrite Hout by assumption. exact Hself.
      * rewrite Hin by assumption. now rewrite Hrest.
    + intros h Hp Hnot. rewrite Hout by (try assumption; intro; apply Hnot;
                                         now right).
      apply Hothers; [assumption|]. intros ->. apply Hnot. now left.
Qed.

Lemma filter_all {A : Type} (p : A -> bool) (l : list A) :
  (forall x, In x l -> p x = true) -> filter p l = l.
Proof.
  induction l as [|x l IH]; intro H; [reflexivity|].
  cbn. rewrite H by now left. f_equal. apply IH. intros; apply H. now right.
Qed.

Lemma filter_none {A : Type} (p : A -> bool) (l : list A) :
  (forall x, In x l -> p x = false) -> filter p l = [].
Proof.
  induction l as [|x l IH]; intro H; [reflexivity|].
  cbn. rewrite H by now left. apply IH. intros; apply H. now right.
Qed.

(** While every action needs more than [j] calls, [j] passes leave the
    pool as it is. *)
Lemma drain_passes_pending (j : nat) :
  forall (w : World) (m : nat),
    NoDup pool -> (forall h, In h pool -> left h w = m) -> (j < m)%nat ->
    let r := drain_passes env j pool w in
    result r = Val pool
    /\ forall h, In h pool -> left h (world r) = (m - j)%nat.
Proof.
  induction j as [|j IH]; intros w m Hnd Hall Hlt; cbv zeta.
  - cbn. split; [reflexivity|]. intros h Hh. rewrite Hall by assumption. lia.
  - destruct (drain_counts pool [] w Hnd (incl_refl _)) as (Hres & Hin & _).
    cbn [app] in Hres.
    rewrite filter_all in Hres.
    2:{ intros h Hh. rewrite Hall by assumption. apply Nat.leb_le. lia. }
    cbn [drain_passes].
    rewrite (bind_val _ _ w (world (drain env pool [] w)) pool
               (calls (drain env pool [] w)))
      by (rewrite <- Hres; apply reply_eta).
    cbn [result world].
    destruct (IH (world (drain env pool [] w)) (pred m) Hnd) as (H1 & H2).
    { intros h Hh. rewrite Hin by assumption. now rewrite Hall. }
    { lia. }
    split; [assumption|]. intros h Hh. rewrite H2 by assumption. lia.
Qed.

(** When every action needs exactly [k + 1] calls, [k + 1] passes empty
    the pool. *)
Lemma drain_passes_done (k : nat) :
  forall (w : World),
    NoDup pool -> (forall h, In h pool -> left h w = S k) ->
    result (drain_passes env (S k) pool w) = Val [].
Proof.
  induction k as [|k IH]; intros w Hnd Hall;
    destruct (drain_counts pool [] w Hnd (incl_refl _)) as (Hres & Hin & _);
    cbn [app] in Hres; cbn [drain_passes].
  - rewrite filter_none in Hres
      by (intros h Hh; rewrite Hall by assumption; reflexivity).
    rewrite (bind_val _ _ w (world (drain env pool [] w)) []
               (calls (drain env pool [] w)))
      by (rewrite <- Hres; apply reply_eta).
    reflexivity.
  - rewrite filter_all in Hres
      by (intros h Hh; rewrite Hall by assumption; reflexivity).
    rewrite (bind_val _ _ w (world (drain env pool [] w)) pool
               (calls (drain env pool [] w)))
      by (rewrite <- Hres; apply reply_eta).
    cbn [result]. apply IH; [assumption|].
    intros h Hh. rewrite Hin by assumption. now rewrite Hall.
Qed.

(** C2, as the code has it: a pass keeps a handle exactly when its
    [retry()] returns [False] and drops it when it returns [True]; so a pool
    of distinct handles that each answer [True] at their [k]-th call, and
    [False] before, is still whole after every [j < k] passes and is empty
    after [k] passes, whatever its size. *)
Theorem drain_passes_empty (k : nat) (w : World) :
  NoDup pool ->
  (forall h, In h pool -> left h w = k) ->
  (1 <= k)%nat ->
  (forall w0,
     result (drain env pool [] w0)
     = Val (filter (fun h => negb (left h w0 <=? 1)%nat) pool))
  /\ (forall j, (j < k)%nat -> result (drain_passes env j pool w) = Val pool)
  /\ result (drain_passes env k pool w) = Val [].
Proof.
  intros Hnd Hall Hk. split; [|split].
  - intro w0.
    destruct (drain_counts pool [] w0 Hnd (incl_refl _)) as (Hres & _).
    rewrite Hres. cbn [app]. f_equal. apply filter_ext. intro h.
    destruct (Nat.leb_spec (left h w0) 1), (Nat.leb_spec 2 (left h w0));
      try lia; reflexivity.
  - intros j Hj. now apply (drain_passes_pending j w k).
  - destruct k as [|k']; [lia|]. now apply drain_passes_done.
Qed.

End Pool.

(** Three pending actions that each resolve at their second [retry]. *)
Definition second_call : Mock.Script :=
  Mock.mkScript (fun _ n => Returned (2 - n <=? 1)%nat)
    (fun _ _ => Raised (PyException "NotFound")) (fun _ => "")
    (Returned "") (fun _ _ => Returned None).

Definition left_of_two (h : nat) (w : Mock.World) : nat :=
  (2 - Mock.retried w h)%nat.

Lemma second_call_counts_down :
  counts_down (Mock.env second_call) left_of_two [0; 1; 2]%nat.
Proof.
  intros h w _. unfold left_of_two. cbn. unfold Mock.bump.
  rewrite Nat.eqb_refl. split; [reflexivity|].
  split; [now destruct (Mock.retried w h) as [|[|n]]|].
  intros h' _ Hne. destruct (Nat.eqb_spec h h'); [congruence|reflexivity].
Qed.

Lemma drain_passes_empty_witness :
  (forall w0,
     result (drain (Mock.env second_call) [0; 1; 2]%nat [] w0)
     = Val (filter (fun h => negb (left_of_two h w0 <=? 1)%nat)
              [0; 1; 2]%nat))
  /\ (forall j, (j < 2)%nat ->
        result (drain_passes (Mock.env second_call) j [0; 1; 2]%nat
                  (Mock.start 0 []))
        = Val [0; 1; 2]%nat)
  /\ result (drain_passes (Mock.env second_call) 2 [0; 1; 2]%nat
               (Mock.start 0 []))
     = Val [].
Proof.
  apply (drain_passes_empty Mock.World nat (Mock.env second_call)
           left_of_two [0; 1; 2]%nat second_call_counts_down 2%nat
           (Mock.start 0 [])).
  - repeat constructor; simpl; lia.
  - intros h _. reflexivity.
  - lia.
Defined.

(** Pending actions that answer [True] twice and [False] from then on. *)
Definition true_twice : Mock.Script :=
  Mock.mkScript (fun _ n => Returned (n <? 2)%nat)
    (fun _ _ => Raised (PyException "NotFound")) (fun _ => "")
    (Returned "") (fun _ _ => Returned None).

(** C2 as stated fails: a handle whose [retry()] returns [True] is dropped
    by the pass and one whose [retry()] returns [False] is kept; and a pool
    of handles that answer [True], [True], [False] is empty after one pass,
    not after three. *)
Lemma drain_drops_on_true :
  (fst (retry (Mock.env true_twice) 7%nat (Mock.start 0 [])) = Returned true
   /\ result (drain (Mock.env true_twice) [7%nat] [] (Mock.start 0 []))
      = Val [])
  /\ (fst (retry (Mock.env Mock.quiet) 7%nat (Mock.start 0 []))
      = Returned false
      /\ result (drain (Mock.env Mock.quiet) [7%nat] [] (Mock.start 0 []))
         = Val [7%nat])
  /\ result (drain_passes (Mock.env true_twice) 1 [0; 1]%nat
               (Mock.start 0 []))
     = Val [].
Proof. repeat split. Qed.

(** ** The failure detector and the cleanup *)

Section CleanupFacts.

Variables World Handle : Type.
Variable env : Env World Handle.
Variable f : Frame.

Lemma grep_nodes_returns (key usr : option string) (grep : string)
  (nodes : list string) :
  forall w : World,
    (exists b, result (grep_nodes env key usr grep nodes w) = Val b)
    /\ Forall (fun e => is_ssh e = true)
         (calls (grep_nodes env key usr grep nodes w)).
Proof.
  induction nodes as [|node rest IH]; intro w; cbn [grep_nodes].
  - split; [now exists false | constructor].
  - unfold bind, call_total.
    destruct (ssh_nocheck env key usr node grep w) as [errors w1].
    cbn [result world calls].
    destruct (0 <? String.length errors)%nat.
    + split; [now exists true | repeat constructor].
    + destruct (IH w1) as [[b Hb] Hc]. split; [now exists b|].
      cbn [app]. now constructor.
Qed.

(** A check of the logs always answers, and is entered once. *)
Lemma error_in_logs_returns (w : World) :
  exists (b : bool) (l : list (Event Handle)),
    result (error_in_logs env f w) = Val b
    /\ calls (error_in_logs env f w) = EvLogCheck :: l
    /\ Forall (fun e => is_ssh e = true) l.
Proof.
  unfold error_in_logs, _error_in_logs, bind, update. cbn [result world calls].
  destruct (grep_nodes_returns (keypath f) (user f)
              (grep_command (logdir f)) (computes f) w) as [[b Hb] Hc].
  exists b. eexists. split; [exact Hb|]. split; [reflexivity|exact Hc].
Qed.

Lemma count_ssh_only (p : Event Handle -> bool) (l : list (Event Handle)) :
  (forall node, p (EvSsh node) = false) ->
  Forall (fun e => is_ssh e = true) l ->
  count_calls p l = O.
Proof.
  intros Hp Hl. apply count_calls_none.
  eapply Forall_impl; [|exact Hl].
  intros [] He; try discriminate. apply Hp.
Qed.

Lemma error_in_logs_counts (w : World) :
  count_calls is_logcheck (calls (error_in_logs env f w)) = 1%nat
  /\ count_calls is_sleep (calls (error_in_logs env f w)) = O
  /\ count_calls is_action (calls (error_in_logs env f w)) = O
  /\ (forall id,
        count_calls (is_get_server id) (calls (error_in_logs env f w)) = O).
Proof.
  destruct (error_in_logs_returns w) as (b & l & _ & -> & Hl).
  split; [|split; [|split]]; [| | |intro id];
    rewrite count_calls_cons, count_ssh_only by (assumption || reflexivity);
    reflexivity.
Qed.

(** Whatever [get_server] raises ends the wait as if the server were gone. *)
Lemma wait_killed_raised (fuel : nat) (id : string) (i : Z) (w w1 : World)
  (e : exn) :
  get_server env id w = (Raised e, w1) ->
  wait_killed env (S fuel) f id i w = mkReply (Val tt) w1 [EvGetServer id].
Proof.
  intro H. cbn [wait_killed]. unfold bind, try_, call. rewrite H. reflexivity.
Qed.

Lemma wait_killed_returned (fuel : nat) (id : string) (i : Z) (w w1 : World)
  (u : unit) :
  get_server env id w = (Returned u, w1) ->
  wait_killed env (S fuel) f id i w
  = let r :=
      (if 60 <? i + 1
       then bind (error_in_logs env f)
              (fun _ => raise (PyException "Cleanup timed out"))
       else bind (sleep env 1%Q)
              (fun _ => wait_killed env fuel f id (i + 1))) w1 in
    mkReply (result r) (world r) (EvGetServer id :: calls r).
Proof.
  intro H. cbn [wait_killed]. unfold bind at 1, try_, call. rewrite H.
  reflexivity.
Qed.

(** What a wait that starts with [i] passes behind it does, given fuel for
    the passes that remain. *)
Lemma wait_killed_from (id : string) (fuel : nat) :
  forall (i : Z) (w : World),
    0 <= i <= 60 -> 61 - i <= Z.of_nat fuel ->
    let r := wait_killed env fuel f id i w in
    let gets := count_calls (is_get_server id) (calls r) in
    let sleeps := count_calls is_sleep (calls r) in
    let checks := count_calls is_logcheck (calls r) in
    (1 <= gets)%nat
    /\ Forall (fun e => is_sleep e = true -> e = EvSleep 1%Q) (calls r)
    /\ ((result r = Val tt /\ Z.of_nat gets <= 61 - i
         /\ sleeps = (gets - 1)%nat /\ checks = O)
        \/ (result r = Exc (PyException "Cleanup timed out")
            /\ Z.of_nat gets = 61 - i /\ Z.of_nat sleeps = 60 - i
            /\ checks = 1%nat)).
Proof.
  induction fuel as [|fuel IH]; intros i w Hi Hfuel; [lia|].
  destruct (get_server env id w) as [[u|e] w1] eqn:Hget.
  - rewrite (wait_killed_returned _ _ _ _ _ _ Hget). cbv zeta.
    cbn [calls result]. unfold count_calls.
    cbn [filter is_get_server is_sleep is_logcheck]. rewrite String.eqb_refl.
    cbn [List.length].
    destruct (Z.ltb_spec 60 (i + 1)) as [Hlast|Hmore].
    + destruct (error_in_logs_returns w1) as (b & l & Hb & Hc & Hl).
      destruct (error_in_logs_counts w1) as (Hc1 & Hc2 & _ & Hc4).
      rewrite (bind_val _ _ w1 (world (error_in_logs env f w1)) b
                 (calls (error_in_logs env f w1)))
        by (rewrite <- Hb; apply reply_eta).
      cbn [raise result calls]. rewrite app_nil_r.
      fold (count_calls (@is_get_server Handle id)
              (calls (error_in_logs env f w1))).
      fold (count_calls (@is_sleep Handle) (calls (error_in_logs env f w1))).
      fold (count_calls (@is_logcheck Handle)
              (calls (error_in_logs env f w1))).
      rewrite Hc1, Hc2, Hc4. split; [lia|]. split.
      * constructor; [discriminate|]. rewrite Hc. constructor; [discriminate|].
        eapply Forall_impl; [|exact Hl]. intros [] He; discriminate.
      * right. repeat split; lia.
    + unfold bind, sleep, update. cbn [result world calls app].
      cbn [filter is_get_server is_sleep is_logcheck List.length].
      destruct (IH (i + 1) (time_sleep env 1%Q w1)) as (Hg & Hs & Hres);
        [lia|lia|]. cbv zeta in *.
      set (r := wait_killed env fuel f id (i + 1) (time_sleep env 1%Q w1))
        in *.
      destruct Hres as [(Hr & Hn & Hsl & Hck) | (Hr & Hn & Hsl & Hck)];
        rewrite Hr; cbn [result calls];
        unfold count_calls in *;
        (split; [lia|]); (split; [repeat constructor; try discriminate;
                                  assumption|]).
      * left. repeat split; try lia.
      * right. repeat split; try lia.
  - rewrite (wait_killed_raised _ _ _ _ _ _ Hget). cbv zeta.
    cbn [calls result]. unfold count_calls.
    cbn [filter is_get_server is_sleep is_logcheck]. rewrite String.eqb_refl.
    cbn [List.length]. split; [lia|]. split.
    + constructor; [discriminate|constructor].
    + left. repeat split; lia.
Qed.

Lemma confirm_killed_at (pre post : list (string * string))
  (t : string * string) (w w2 : World) (ev2 : list (Event Handle)) :
  confirm_killed env f pre w = mkReply (Val tt) w2 ev2 ->
  confirm_killed env f (pre ++ t :: post) w
  = let r :=
      bind (bind (wait_killed env poll_budget f (fst t) 0)
              (fun _ => update [EvForget (fst t)]
                          (delete_instance_state env (fst t))))
        (fun _ => confirm_killed env f post) w2 in
    mkReply (result r) (world r) (ev2 ++ calls r).
Proof.
  intro Hpre. unfold confirm_killed in *. rewrite for_each_app.
  rewrite (bind_val _ _ _ _ _ _ Hpre). reflexivity.
Qed.

Lemma bind_update {B : Type} (ev : list (Event Handle))
  (g : World -> World) (k : unit -> Step World Handle B) (w : World) :
  bind (update ev g) k w
  = let r := k tt (g w) in mkReply (result r) (world r) (ev ++ calls r).
Proof. reflexivity. Qed.

Lemma bind_sleep {B : Type} (t : Q) (k : unit -> Step World Handle B)
  (w : World) :
  bind (sleep env t) k w
  = let r := k tt (time_sleep env t w) in
    mkReply (result r) (world r) (EvSleep t :: calls r).
Proof. reflexivity. Qed.

(** A wait whose next [n] looks find the server goes on after them as if
    it had started there. *)
Lemma wait_killed_looks (id : string) (n : nat) :
  forall (fuel : nat) (i : Z) (w : World),
    observed env n id w = true ->
    i + Z.of_nat n <= 60 ->
    wait_killed env (n + fuel) f id i w
    = let r := wait_killed env fuel f id (i + Z.of_nat n)
                 (after_polls env n id w) in
      mkReply (result r) (world r) (poll_calls n id ++ calls r).
Proof.
  induction n as [|n IH]; intros fuel i w Hobs Hi.
  - cbn [Nat.add after_polls poll_calls app Z.of_nat]. cbv zeta.
    rewrite Z.add_0_r. apply reply_eta.
  - cbn [observed] in Hobs. apply andb_true_iff in Hobs as [Hret Hobs].
    cbn [after_polls].
    destruct (get_server env id w) as [[u|e] w1] eqn:Hget;
      cbn [fst snd returned] in *; [|discriminate].
    cbn [Nat.add]. rewrite (wait_killed_returned _ _ _ _ _ _ Hget).
    cbv zeta. destruct (Z.ltb_spec 60 (i + 1)) as [Hlast|_]; [lia|].
    rewrite !bind_sleep. cbv zeta.
    rewrite (IH fuel (i + 1) (time_sleep env 1%Q w1) Hobs) by lia.
    cbv zeta. cbn [result world calls poll_calls app].
    replace (i + 1 + Z.of_nat n) with (i + Z.of_nat (S n)) by lia.
    reflexivity.
Qed.

(** A wait whose first [k] looks find the server and whose next look
    raises. *)
Lemma wait_killed_gone (id : string) (k : nat) (w w1 : World) (e : exn) :
  (k <= 60)%nat ->
  observed env k id w = true ->
  get_server env id (after_polls env k id w) = (Raised e, w1) ->
  wait_killed env poll_budget f id 0 w
  = mkReply (Val tt) w1 (poll_calls k id ++ [EvGetServer id]).
Proof.
  intros Hk Hobs Hget.
  replace poll_budget with (k + (S (60 - k)))%nat
    by (unfold poll_budget; lia).
  rewrite (wait_killed_looks id k (S (60 - k)) 0 w Hobs) by lia.
  cbv zeta. rewrite (wait_killed_raised _ _ _ _ _ _ Hget). reflexivity.
Qed.

Lemma delete_all_returns (targets : list (string * string)) :
  forall (w w1 : World),
    deletes_return env (map fst targets) w = Some w1 ->
    delete_all env targets w
    = mkReply (Val tt) w1 (map EvDeleteServer (map fst targets)).
Proof.
  unfold delete_all.
  induction targets as [|t rest IH]; intros w w1 H; cbn [map for_each].
  - cbn in H. now injection H as <-.
  - cbn [map deletes_return] in H.
    destruct (delete_server env (fst t) w) as [[u|e] w0] eqn:Hd;
      [|discriminate H].
    assert (call [EvDeleteServer (fst t)] (delete_server env (fst t)) w
            = mkReply (Val u) w0 [@EvDeleteServer Handle (fst t)]) as Hc
      by (unfold call; now rewrite Hd).
    rewrite (bind_val _ _ _ _ _ _ Hc). rewrite (IH w0 w1 H). reflexivity.
Qed.

Lemma confirm_killed_vanish (targets : list (string * string)) :
  forall (w w' : World) (polls : list (Event Handle)),
    vanish env (map fst targets) w w' polls ->
    confirm_killed env f targets w = mkReply (Val tt) w' polls.
Proof.
  unfold confirm_killed.
  induction targets as [|t rest IH]; intros w w' polls H; cbn [map] in H;
    inversion H as [|id ids k e w0 w1 w2 polls' Hk Hobs Hget Hrest]; subst.
  - reflexivity.
  - cbn [for_each]. rewrite bind_assoc.
    rewrite (bind_val _ _ _ _ _ _
               (wait_killed_gone (fst t) k w w1 e Hk Hobs Hget)).
    rewrite !bind_update. cbv zeta. rewrite (IH _ _ _ Hrest).
    cbn [result world calls app]. now rewrite <- app_assoc.
Qed.

Lemma active_vms_at (before behind : list instance) (key id : string) :
  active_vms (before ++ (key, Some (id, "ACTIVE")) :: behind)
  = active_vms before ++ (id, "ACTIVE") :: active_vms behind.
Proof. unfold active_vms. rewrite flat_map_app. reflexivity. Qed.

(** C6, as the code has it: the wait for one server makes at most 61
    [get_server] calls, with a sleep of one second after each of them but
    the last.  A look at which [get_server] raises ends the wait; when all
    61 looks find the server, the logs are checked once and
    [Exception("Cleanup timed out")] ends the run in place of a flag. *)
Theorem cleanup_timeout (s : Loop Handle) (before behind : list instance)
  (key id : string) (w w0 w1 w2 : World) (ev2 : list (Event Handle)) :
  let vms := before ++ (key, Some (id, "ACTIVE")) :: behind in
  get_instances env w = (vms, w0) ->
  deletes_return env (map fst (active_vms vms)) w0 = Some w1 ->
  vanish env (map fst (active_vms before)) w1 w2 ev2 ->
  let ev1 := map EvDeleteServer (map fst (active_vms vms)) in
  let r := wait_killed env poll_budget f id 0 w2 in
  let gets := count_calls (is_get_server id) (calls r) in
  (1 <= gets <= 61)%nat
  /\ Forall (fun e => is_sleep e = true -> e = EvSleep 1%Q) (calls r)
  /\ (forall (k : nat) (e : exn) (w' : World),
        (k <= 60)%nat ->
        observed env k id w2 = true ->
        get_server env id (after_polls env k id w2)
        = (Raised e, w') ->
        r = mkReply (Val tt) w' (poll_calls k id ++ [EvGetServer id]))
  /\ (forall (u : unit) (w61 : World),
        observed env 60 id w2 = true ->
        get_server env id (after_polls env 60 id w2)
        = (Returned u, w61) ->
        let d := error_in_logs env f w61 in
        count_calls is_logcheck (calls d) = 1%nat
        /\ r = mkReply (Exc (PyException "Cleanup timed out")) (world d)
                 (poll_calls 60 id ++ EvGetServer id :: calls d)
        /\ finish env f s w
           = mkReply (Exc (PyException "Cleanup timed out")) (world d)
               (ev1 ++ ev2 ++ poll_calls 60 id
                ++ EvGetServer id :: calls d)).
Proof.
  intros vms Hvms Hdel Hpre.
  pose proof (active_vms_at before behind key id) as Hactive.
  fold vms in Hactive. clearbody vms.
  set (pre := active_vms before) in *.
  set (post := active_vms behind) in *. clearbody pre post.
  change id with (fst (id, "ACTIVE")).
  set (t := (id, "ACTIVE")) in *. clearbody t. cbv zeta.
  apply delete_all_returns in Hdel. apply confirm_killed_vanish in Hpre.
  destruct (wait_killed_from (fst t) poll_budget 0 w2) as (Hg & Hs & Hres);
    [lia | cbn; lia |]. cbv zeta in Hg, Hs, Hres.
  split; [|split; [exact Hs|split]].
  - destruct Hres as [(_ & Hn & _) | (_ & Hn & _)]; lia.
  - intros k e w' Hk Hobs Hget.
    replace poll_budget with (k + (S (60 - k)))%nat
      by (unfold poll_budget; lia).
    rewrite (wait_killed_looks (fst t) k (S (60 - k)) 0 w2 Hobs) by lia.
    cbv zeta. rewrite (wait_killed_raised _ _ _ _ _ _ Hget). reflexivity.
  - intros u w61 Hobs Hget. cbv zeta.
    destruct (error_in_logs_counts w61) as (Hone & _).
    destruct (error_in_logs_returns w61) as (b & l & Hb & _).
    assert (wait_killed env poll_budget f (fst t) 0 w2
            = mkReply (Exc (PyException "Cleanup timed out"))
                (world (error_in_logs env f w61))
                (poll_calls 60 (fst t)
                 ++ EvGetServer (fst t) :: calls (error_in_logs env f w61)))
      as Hw.
    { change poll_budget with (60 + 1)%nat.
      rewrite (wait_killed_looks (fst t) 60 1 0 w2 Hobs) by lia.
      cbv zeta. rewrite (wait_killed_returned _ _ _ _ _ _ Hget). cbv zeta.
      change (60 <? 0 + Z.of_nat 60 + 1) with true. cbv iota.
      rewrite (bind_val _ _ w61 (world (error_in_logs env f w61)) b
                 (calls (error_in_logs env f w61)))
        by (rewrite <- Hb; apply reply_eta).
      cbn [raise result world calls]. now rewrite app_nil_r. }
    split; [exact Hone|]. split; [exact Hw|].
    unfold finish, cleanup.
    assert (call_total [] (get_instances env) w
            = mkReply (Val vms) w0 ([] : list (Event Handle))) as Hgi
      by (unfold call_total; now rewrite Hvms).
    apply (bind_exc _ _ _ _ (PyException "Cleanup timed out")).
    rewrite (bind_val _ _ _ _ _ _ Hgi). cbn [app].
    rewrite (bind_val _ _ _ _ _ _ Hdel).
    rewrite Hactive in *. rewrite (confirm_killed_at _ _ _ _ _ _ Hpre).
    cbv zeta. rewrite bind_assoc.
    rewrite (bind_exc _ _ _ _ _ _ Hw). reflexivity.
Qed.

(** C8: whatever [get_server] raises, at whichever pass of the wait, ends
    the wait as a confirmed deletion: no further [get_server] for that
    server, its record is removed from the state, and the cleanup moves on
    to the next server. *)
Theorem get_server_error_confirms (id status : string)
  (rest : list (string * string)) (w w1 : World) (e : exn) :
  get_server env id w = (Raised e, w1) ->
  (forall (fuel : nat) (i : Z),
     wait_killed env (S fuel) f id i w
     = mkReply (Val tt) w1 [EvGetServer id])
  /\ confirm_killed env f ((id, status) :: rest) w
     = let r := confirm_killed env f rest (delete_instance_state env id w1) in
       mkReply (result r) (world r)
         (EvGetServer id :: EvForget id :: calls r).
Proof.
  intro Hget. split.
  - intros fuel i. exact (wait_killed_raised fuel id i w w1 e Hget).
  - unfold confirm_killed. cbn [for_each fst]. unfold poll_budget.
    rewrite bind_assoc.
    rewrite (bind_val _ _ _ _ _ _ (wait_killed_raised 60 id 0 w w1 e Hget)).
    unfold bind, update. cbn [result world calls app]. reflexivity.
Qed.

End CleanupFacts.

(** ** The loop *)

Section LoopFacts.

Variables World Handle : Type.
Variable env : Env World Handle.
Variable f : Frame.

Lemma now_reads (w w' : World) (t : Q) :
  time_time env w = (t, w') -> now env w = mkReply (Val t) w' [].
Proof. intro H. unfold now, call_total. now rewrite H. Qed.

Lemma while_true_exc (fuel : nat) (s : Loop Handle) (w w' : World) (e : exn)
  (ev : list (Event Handle)) :
  iteration env f s w = mkReply (Exc e) w' ev ->
  run_loop env (S fuel) f s w = mkReply (Exc e) w' ev.
Proof.
  intro H. unfold run_loop. cbn [while_true].
  apply bind_exc. now apply bind_exc.
Qed.

(** C3, as the code has it: when the [retry()] of a held handle raises in
    a retry pass, the pass stops there, the handles behind it are not
    retried, and the exception ends the run: no cleanup, no flag. *)
Theorem retry_exception_propagates (fuel : nat) (s s1 : Loop Handle)
  (w w1 w2 w3 w4 : World) (ev1 ev3 : list (Event Handle)) (t : Q)
  (pre post kept : list Handle) (h : Handle) (e : exn) :
  inject env f s w = mkReply (Val s1) w1 ev1 ->
  retry_list s1 = pre ++ h :: post ->
  time_time env w1 = (t, w2) ->
  Qlt_bool 5 (t - last_retry s1) = true ->
  drain env pre [] w2 = mkReply (Val kept) w3 ev3 ->
  retry env h w3 = (Raised e, w4) ->
  run_loop env (S fuel) f s w
  = mkReply (Exc e) w4 (ev1 ++ ev3 ++ [EvRetry h]).
Proof.
  intros Hinj Hlist Htime Hdue Hpre Hh.
  apply while_true_exc. unfold iteration. apply bind_exc.
  unfold upto_sleep. rewrite (bind_val _ _ _ _ _ _ Hinj).
  assert (Nat.eqb (List.length (retry_list s1)) 0 = false) as Hne
    by (rewrite Hlist, length_app; cbn; apply Nat.eqb_neq; lia).
  rewrite Hne, andb_false_r.
  assert (retry_verifications env s1 w1
          = mkReply (Exc e) w4 (ev3 ++ [EvRetry h])) as Hrv.
  { unfold retry_verifications.
    rewrite (bind_val _ _ _ _ _ _ (now_reads _ _ _ Htime)). rewrite Hdue.
    rewrite Hlist.
    rewrite (bind_exc _ _ _ _ _ _
               (drain_stops _ _ env pre h post [] kept w2 w3 w4 ev3 e Hpre Hh)).
    reflexivity. }
  rewrite (bind_exc _ _ _ _ _ _ Hrv). reflexivity.
Qed.

Lemma inject_keeps (s s1 : Loop Handle) (w w1 : World)
  (ev1 : list (Event Handle)) :
  inject env f s w = mkReply (Val s1) w1 ev1 ->
  logcheck_count s1 = logcheck_count s
  /\ test_succeeded s1 = test_succeeded s
  /\ count_calls is_logcheck ev1 = O.
Proof.
  unfold inject. destruct (cooldown s).
  - cbn. intro H. injection H as <- _ <-. now repeat split.
  - cbn [negb]. unfold bind, now, call_total.
    destruct (time_time env w) as [t w0]. cbn [result world calls].
    destruct (Qlt_bool t (test_end_time f)).
    + unfold random_choice.
      destruct (cases f) as [|c0 pool]; [discriminate|].
      unfold bind, call_total, lift, call.
      destruct (random_below env (List.length (c0 :: pool)) w0) as [k wk].
      cbn [result world calls].
      destruct (Py.index (c0 :: pool) (k mod List.length (c0 :: pool)))
        as [case| |]; cbn [result world calls]; try discriminate.
      destruct (invoke env case wk) as [[[h|]|e] wi];
        cbn [of_answer result world calls app]; try discriminate;
        intro H; injection H as <- _ <-; now repeat split.
    + cbn. intro H. injection H as <- _ <-. now repeat split.
Qed.

Lemma retry_verifications_keeps (s1 s2 : Loop Handle) (w w2 : World)
  (ev : list (Event Handle)) :
  retry_verifications env s1 w = mkReply (Val s2) w2 ev ->
  logcheck_count s2 = logcheck_count s1.
Proof.
  unfold retry_verifications, bind, now, call_total.
  destruct (time_time env w) as [t w0]. cbn [result world calls].
  destruct (Qlt_bool 5 (t - last_retry s1)).
  - destruct (drain env (retry_list s1) [] w0) as [[l| |] wd evd];
      cbn [result world calls]; try discriminate.
    destruct (time_time env wd) as [t' wt]. cbn [result world calls ret].
    intro H. now injection H as <- _ _.
  - cbn. intro H. now injection H as <- _ _.
Qed.

Lemma upto_sleep_keeps (s s2 : Loop Handle) (w w2 : World)
  (ev2 : list (Event Handle)) :
  upto_sleep env f s w = mkReply (Val (Continue s2)) w2 ev2 ->
  logcheck_count s2 = logcheck_count s.
Proof.
  unfold upto_sleep. unfold bind at 1.
  destruct (inject env f s w) as [[s1| |] w1 ev1] eqn:Hinj;
    cbn [result world calls]; try discriminate.
  destruct (inject_keeps _ _ _ _ _ Hinj) as (Hc & _).
  destruct (cooldown s1 && Nat.eqb (List.length (retry_list s1)) 0)%bool.
  - unfold bind.
    destruct (error_in_logs env f w1) as [[b| |] wd evd];
      cbn [result world calls ret]; discriminate.
  - unfold bind at 1.
    destruct (retry_verifications env s1 w1) as [[s2'| |] wr evr] eqn:Hrv;
      cbn [result world calls]; try discriminate.
    unfold bind, sleep, update, ret. cbn [result world calls].
    intro H. injection H as <- _ _.
    rewrite <- Hc. now apply (retry_verifications_keeps _ _ _ _ _ Hrv).
Qed.

Lemma run_loop_break (fuel : nat) (s s' : Loop Handle) (w w' : World)
  (ev : list (Event Handle)) :
  iteration env f s w = mkReply (Val (Break s')) w' ev ->
  run_loop env (S fuel) f s w
  = let c := cleanup env f w' in
    mkReply (match result c with
             | Val _ => Val (test_succeeded s')
             | Exc e => Exc e
             | OutOfFuel => OutOfFuel
             end) (world c) (ev ++ calls c).
Proof.
  intro H. unfold run_loop. cbn [while_true]. rewrite bind_assoc.
  rewrite (bind_val _ _ _ _ _ _ H). rewrite bind_ret.
  unfold finish, bind. cbv zeta.
  destruct (cleanup env f w') as [[u| |] wc evc]; cbn;
    now rewrite ?app_nil_r.
Qed.

(** C4, as the code has it: [logcheck_count] goes up by one in every pass
    of the loop body that reaches its last lines, whether or not the pass
    invoked an action; a pass that gets there with the counter above 100
    checks the logs once, and when the check answers [True] the loop is
    left at once, the cleanup runs and the flag is [False], whatever time
    is left for injection. *)
Theorem logcheck_tripwire (fuel : nat) (s s2 : Loop Handle) (w w2 : World)
  (ev2 : list (Event Handle)) :
  upto_sleep env f s w = mkReply (Val (Continue s2)) w2 ev2 ->
  let d := error_in_logs env f w2 in
  let c := cleanup env f (world d) in
  logcheck_count s2 = logcheck_count s
  /\ (logcheck_count s <= 100 ->
      iteration env f s w
      = mkReply
          (Val (Continue (mkLoop (retry_list s2) (last_retry s2) (cooldown s2)
                            (logcheck_count s + 1) (test_succeeded s2))))
          w2 ev2)
  /\ (100 < logcheck_count s ->
      count_calls is_logcheck (calls d) = 1%nat
      /\ (result d = Val false ->
          iteration env f s w
          = mkReply
              (Val (Continue (mkLoop (retry_list s2) (last_retry s2)
                                (cooldown s2) 0 (test_succeeded s2))))
              (world d) (ev2 ++ calls d))
      /\ (result d = Val true ->
          iteration env f s w
          = mkReply
              (Val (Break (mkLoop (retry_list s2) (last_retry s2)
                             (cooldown s2) (logcheck_count s) false)))
              (world d) (ev2 ++ calls d)
          /\ run_loop env (S fuel) f s w
             = mkReply (match result c with
                        | Val _ => Val false
                        | Exc e => Exc e
                        | OutOfFuel => OutOfFuel
                        end) (world c) (ev2 ++ calls d ++ calls c))).
Proof.
  intro Hup. cbv zeta.
  pose proof (upto_sleep_keeps _ _ _ _ _ Hup) as Hcount.
  split; [assumption|].
  assert (forall n, check_logs env f s2 w2 = n ->
                    iteration env f s w
                    = mkReply (result n) (world n) (ev2 ++ calls n)) as Hit.
  { intros n <-. unfold iteration. now rewrite (bind_val _ _ _ _ _ _ Hup). }
  split.
  - intro Hle. rewrite (Hit _ eq_refl). unfold check_logs.
    rewrite Hcount.
    destruct (Z.ltb_spec 100 (logcheck_count s)); [lia|].
    cbn. now rewrite app_nil_r.
  - intro Hgt.
    assert ((100 <? logcheck_count s2) = true) as Hlt
      by (rewrite Hcount; now apply Z.ltb_lt).
    split; [apply (error_in_logs_counts World Handle env f w2)|].
    split; intro Hd.
    + rewrite (Hit _ eq_refl). unfold check_logs. rewrite Hlt.
      rewrite (bind_val _ _ w2 (world (error_in_logs env f w2)) false
                 (calls (error_in_logs env f w2)))
        by (rewrite <- Hd; apply reply_eta).
      cbn. now rewrite app_nil_r.
    + assert (iteration env f s w
              = mkReply
                  (Val (Break (mkLoop (retry_list s2) (last_retry s2)
                                 (cooldown s2) (logcheck_count s) false)))
                  (world (error_in_logs env f w2))
                  (ev2 ++ calls (error_in_logs env f w2))) as Hbreak.
      { rewrite (Hit _ eq_refl). unfold check_logs. rewrite Hlt.
        rewrite (bind_val _ _ w2 (world (error_in_logs env f w2)) true
                   (calls (error_in_logs env f w2)))
          by (rewrite <- Hd; apply reply_eta).
        cbn. now rewrite app_nil_r, Hcount. }
      split; [exact Hbreak|].
      rewrite (run_loop_break fuel _ _ _ _ _ Hbreak). cbv zeta.
      cbn [test_succeeded]. now rewrite app_assoc.
Qed.

(** The reply of a run whose pass finds the pool empty in cooldown: one
    check of the logs, then the cleanup, then the flag. *)
Lemma cooldown_exit_reply (fuel : nat) (s s1 : Loop Handle) (w w1 : World)
  (ev1 : list (Event Handle)) :
  inject env f s w = mkReply (Val s1) w1 ev1 ->
  cooldown s1 = true ->
  retry_list s1 = [] ->
  let d := error_in_logs env f w1 in
  let c := cleanup env f (world d) in
  count_calls is_logcheck (ev1 ++ calls d) = 1%nat
  /\ exists b : bool,
       result d = Val b
       /\ run_loop env (S fuel) f s w
          = mkReply (match result c with
                     | Val _ => Val (if b then false else test_succeeded s)
                     | Exc e => Exc e
                     | OutOfFuel => OutOfFuel
                     end) (world c) (ev1 ++ calls d ++ calls c).
Proof.
  intros Hinj Hcool Hempty. cbv zeta.
  destruct (inject_keeps _ _ _ _ _ Hinj) as (_ & Hts & Hnone).
  destruct (error_in_logs_counts World Handle env f w1) as (Hone & _).
  split; [rewrite count_calls_app, Hnone, Hone; reflexivity|].
  destruct (error_in_logs_returns World Handle env f w1) as (b & l & Hb & _).
  exists b. split; [exact Hb|].
  assert (iteration env f s w
          = mkReply
              (Val (Break (if b
                           then mkLoop (retry_list s1) (last_retry s1)
                                  (cooldown s1) (logcheck_count s1) false
                           else s1)))
              (world (error_in_logs env f w1))
              (ev1 ++ calls (error_in_logs env f w1))) as Hbreak.
  { unfold iteration, upto_sleep. rewrite bind_assoc.
    rewrite (bind_val _ _ _ _ _ _ Hinj). rewrite Hcool, Hempty. cbn [andb].
    cbn [List.length Nat.eqb]. rewrite bind_assoc.
    rewrite (bind_val _ _ w1 (world (error_in_logs env f w1)) b
               (calls (error_in_logs env f w1)))
      by (rewrite <- Hb; apply reply_eta).
    cbn. now rewrite app_nil_r. }
  rewrite (run_loop_break fuel _ _ _ _ _ Hbreak). cbv zeta.
  rewrite app_assoc. destruct b; cbn [test_succeeded]; now rewrite ?Hts.
Qed.

End LoopFacts.

(** ** Cooldown *)

Section Without.

Context {W E : Type}.
Variable p : E -> bool.

Lemma without_ret {A : Type} (P : A -> Prop) (a : A) :
  P a -> without p P (ret a : M W E A).
Proof.
  intros H w. split; [constructor|]. cbn. intros a' [= <-]. exact H.
Qed.

Lemma without_raise {A : Type} (P : A -> Prop) (e : exn) :
  without p P (raise e : M W E A).
Proof. intro w. split; [constructor|]. cbn. discriminate. Qed.

Lemma without_out_of_fuel {A : Type} (P : A -> Prop) :
  without p P (out_of_fuel : M W E A).
Proof. intro w. split; [constructor|]. cbn. discriminate. Qed.

Lemma without_bind {A B : Type} (Q : A -> Prop) (P : B -> Prop)
  (m : M W E A) (k : A -> M W E B) :
  without p Q m -> (forall a, Q a -> without p P (k a)) ->
  without p P (bind m k).
Proof.
  intros Hm Hk w. destruct (Hm w) as [Hc Hr]. unfold bind.
  destruct (m w) as [[a| |] w1 ev1]; cbn in *.
  - destruct (Hk a (Hr a eq_refl) w1) as [Hc' Hr'].
    split; [now apply Forall_app|exact Hr'].
  - split; [assumption|discriminate].
  - split; [assumption|discriminate].
Qed.

Lemma without_weaken {A : Type} (Q P : A -> Prop) (m : M W E A) :
  without p Q m -> (forall a, Q a -> P a) -> without p P m.
Proof.
  intros Hm HQP w. destruct (Hm w) as [Hc Hr]. split; [assumption|].
  intros a Ha. apply HQP, Hr, Ha.
Qed.

Lemma without_for_each {X : Type} (xs : list X) (body : X -> M W E unit) :
  (forall x, without p (fun _ => True) (body x)) ->
  without p (fun _ => True) (for_each xs body).
Proof.
  intro Hb. induction xs as [|x xs IH]; cbn [for_each].
  - now apply without_ret.
  - apply (without_bind (fun _ => True)); [apply Hb|]. intros _ _. exact IH.
Qed.

End Without.

Section Gating.

Variables World Handle : Type.
Variable env : Env World Handle.
Variable f : Frame.

Local Notation "'no_action'" := (without (@is_action Handle)).

Lemma call_no_action {A : Type} (ev : list (Event Handle))
  (g : World -> answer A * World) :
  Forall (fun e => is_action e = false) ev ->
  no_action (fun _ => True) (call ev g).
Proof.
  intros H w. unfold call. destruct (g w) as [a w1]. cbn. now split.
Qed.

Lemma call_total_no_action {A : Type} (ev : list (Event Handle))
  (g : World -> A * World) :
  Forall (fun e => is_action e = false) ev ->
  no_action (fun _ => True) (call_total ev g).
Proof.
  intros H w. unfold call_total. destruct (g w) as [a w1]. cbn. now split.
Qed.

Lemma update_no_action (ev : list (Event Handle)) (g : World -> World) :
  Forall (fun e => is_action e = false) ev ->
  no_action (fun _ => True) (update ev g).
Proof. intros H w. cbn. now split. Qed.

Lemma try_no_action {A : Type} (m : Step World Handle A) :
  no_action (fun _ => True) m -> no_action (fun _ => True) (try_ m).
Proof.
  intros Hm w. destruct (Hm w) as [Hc _]. unfold try_.
  destruct (m w) as [[a| |] w1 ev1]; cbn in *; now split.
Qed.

Lemma error_in_logs_no_action :
  no_action (fun _ => True) (error_in_logs env f).
Proof.
  intro w. split; [|trivial].
  destruct (error_in_logs_returns World Handle env f w)
    as (b & l & _ & -> & Hl).
  constructor; [reflexivity|].
  eapply Forall_impl; [|exact Hl]. intros [] He; try discriminate. reflexivity.
Qed.

Lemma drain_no_action (pool acc : list Handle) :
  no_action (fun _ => True) (drain env pool acc).
Proof.
  revert acc. induction pool as [|v rest IH]; intro acc; cbn [drain].
  - now apply without_ret.
  - apply (without_bind _ (fun _ => True)).
    + apply call_no_action. now repeat constructor.
    + intros b _. apply IH.
Qed.

Lemma retry_verifications_no_action (s : Loop Handle) :
  cooldown s = true ->
  no_action (fun s' => cooldown s' = true) (retry_verifications env s).
Proof.
  intro Hs. unfold retry_verifications.
  apply (without_bind _ (fun _ => True));
    [apply call_total_no_action; constructor|].
  intros t _. destruct (Qlt_bool 5 (t - last_retry s)).
  - apply (without_bind _ (fun _ => True)); [apply drain_no_action|].
    intros l _.
    apply (without_bind _ (fun _ => True));
      [apply call_total_no_action; constructor|].
    intros t' _. now apply without_ret.
  - now apply without_ret.
Qed.

Lemma check_logs_no_action (s : Loop Handle) :
  cooldown s = true -> no_action in_cooldown (check_logs env f s).
Proof.
  intro Hs. unfold check_logs. destruct (100 <? logcheck_count s).
  - apply (without_bind _ (fun _ => True)); [apply error_in_logs_no_action|].
    intros [] _; now apply without_ret.
  - now apply without_ret.
Qed.

Lemma upto_sleep_no_action (s : Loop Handle) :
  cooldown s = true -> no_action in_cooldown (upto_sleep env f s).
Proof.
  intro Hs.
  assert (forall w, upto_sleep env f s w
                    = (if Nat.eqb (List.length (retry_list s)) 0
                       then
                         bind (error_in_logs env f) (fun e =>
                           ret (Break (if e : bool
                                       then mkLoop (retry_list s)
                                              (last_retry s) (cooldown s)
                                              (logcheck_count s) false
                                       else s)))
                       else
                         bind (retry_verifications env s) (fun s2 =>
                         bind (sleep env (sleep_time f)) (fun _ =>
                           ret (Continue s2)))) w) as Heq.
  { intro w. unfold upto_sleep, inject. rewrite Hs. cbn [negb].
    rewrite bind_ret. now rewrite Hs. }
  intro w. rewrite Heq. revert w. clear Heq.
  destruct (Nat.eqb (List.length (retry_list s)) 0).
  - apply (without_bind _ (fun _ => True)); [apply error_in_logs_no_action|].
    intros [] _; now apply without_ret.
  - apply (without_bind _ (fun s' => cooldown s' = true));
      [now apply retry_verifications_no_action|].
    intros s2 Hs2. apply (without_bind _ (fun _ => True)).
    + apply update_no_action. now repeat constructor.
    + intros _ _. now apply without_ret.
Qed.

Lemma iteration_no_action (s : Loop Handle) :
  cooldown s = true -> no_action in_cooldown (iteration env f s).
Proof.
  intro Hs. unfold iteration.
  apply (without_bind _ in_cooldown); [now apply upto_sleep_no_action|].
  intros [s2|s'] Hn; cbn in Hn.
  - now apply check_logs_no_action.
  - now apply without_ret.
Qed.

Lemma while_true_no_action (fuel : nat) :
  forall s : Loop Handle,
    cooldown s = true ->
    no_action (fun s' => cooldown s' = true) (while_true env fuel f s).
Proof.
  induction fuel as [|fuel IH]; intros s Hs; cbn [while_true].
  - apply without_out_of_fuel.
  - apply (without_bind _ in_cooldown); [now apply iteration_no_action|].
    intros [s'|s'] Hn; cbn in Hn.
    + now apply IH.
    + now apply without_ret.
Qed.

Lemma wait_killed_no_action (id : string) (fuel : nat) :
  forall i : Z, no_action (fun _ => True) (wait_killed env fuel f id i).
Proof.
  induction fuel as [|fuel IH]; intro i; cbn [wait_killed].
  - apply without_out_of_fuel.
  - apply (without_bind _ (fun _ => True)).
    + apply try_no_action, call_no_action. now repeat constructor.
    + intros [u|e] _; [|now apply without_ret].
      destruct (60 <? i + 1).
      * apply (without_bind _ (fun _ => True));
          [apply error_in_logs_no_action|].
        intros _ _. apply without_raise.
      * apply (without_bind _ (fun _ => True)).
        -- apply update_no_action. now repeat constructor.
        -- intros _ _. apply IH.
Qed.

Lemma finish_no_action (s : Loop Handle) :
  no_action (fun _ => True) (finish env f s).
Proof.
  unfold finish, cleanup.
  apply (without_bind _ (fun _ => True)); [|intros; now apply without_ret].
  apply (without_bind _ (fun _ => True));
    [apply call_total_no_action; constructor|].
  intros vms _. apply (without_bind _ (fun _ => True)).
  - apply without_for_each. intro t. apply call_no_action.
    now repeat constructor.
  - intros _ _. apply without_for_each. intro t.
    apply (without_bind _ (fun _ => True)); [apply wait_killed_no_action|].
    intros _ _. apply update_no_action. now repeat constructor.
Qed.

(** C5: from a state in cooldown, however many passes the loop makes and
    through the cleanup, no action is drawn from the pool and none is
    invoked; every state the loop goes through or ends in is in cooldown. *)
Theorem cooldown_gating (fuel : nat) (s : Loop Handle) (w : World) :
  cooldown s = true ->
  count_calls is_action (calls (run_loop env fuel f s w)) = O
  /\ (forall s', result (iteration env f s w) = Val (Continue s') ->
                 cooldown s' = true)
  /\ (forall s', result (while_true env fuel f s w) = Val s' ->
                 cooldown s' = true).
Proof.
  intro Hs. split; [|split].
  - apply count_calls_none. unfold run_loop.
    apply (without_bind is_action (fun s' => cooldown s' = true)
             (fun _ => True)).
    + now apply while_true_no_action.
    + intros s' _. apply finish_no_action.
  - intros s' Hr.
    now apply (proj2 (iteration_no_action s Hs w) (Continue s')).
  - intros s' Hr. now apply (proj2 (while_true_no_action fuel s Hs w) s').
Qed.

(** Cooldown begins at the first pass that finds the deadline behind it,
    and that pass draws no action either. *)
Lemma inject_enters_cooldown (s : Loop Handle) (w w1 : World) (t : Q) :
  cooldown s = false ->
  time_time env w = (t, w1) ->
  Qlt_bool t (test_end_time f) = false ->
  inject env f s w
  = mkReply (Val (mkLoop (retry_list s) (last_retry s) true
                    (logcheck_count s) (test_succeeded s))) w1 [].
Proof.
  intros Hs Ht Hlate. unfold inject. rewrite Hs. cbn [negb].
  rewrite (bind_val _ _ _ _ _ _ (now_reads _ _ env w w1 t Ht)).
  rewrite Hlate. reflexivity.
Qed.

End Gating.

(** ** Runs on the scripted cluster *)

Definition action_a : BasherChoice := mkChoice "A" 60.
Definition action_b : BasherChoice := mkChoice "B" 40.

Definition manager0 : Manager :=
  mkManager (mkStressConfig (Some "key") (Some "root") "/var/log/nova" 32)
    "controller".

Definition no_kwargs : Kwargs := mkKwargs None None None None None.

Definition three_seconds : Q := (3000 / 1000)%Q.

(** Every action hands back a new pending action; the second one raises
    when it is retried. *)
Definition raising_retry : Mock.Script :=
  Mock.mkScript
    (fun h _ => if Nat.eqb h 2 then Raised (PyException "verification failed")
                else Returned false)
    (fun _ _ => Raised (PyException "NotFound")) (fun _ => "")
    (Returned "") (fun _ n => Returned (Some n)).

Lemma retry_exception_propagates_witness :
  let env := Mock.env raising_retry in
  let s := mkLoop [1; 2; 3]%nat 0%Q true 0 true in
  let w := Mock.start 6 [] in
  let w3 := snd (retry env 1%nat w) in
  let w4 := snd (retry env 2%nat w3) in
  run_loop env 1 (Mock.frame [] [action_a] 10) s w
  = mkReply (Exc (PyException "verification failed")) w4
      ([] ++ [EvRetry 1%nat] ++ [EvRetry 2%nat]).
Proof.
  cbv zeta.
  apply (retry_exception_propagates Mock.World nat (Mock.env raising_retry)
           (Mock.frame [] [action_a] 10) 0
           (mkLoop [1; 2; 3]%nat 0%Q true 0 true)
           (mkLoop [1; 2; 3]%nat 0%Q true 0 true)
           (Mock.start 6 []) (Mock.start 6 []) (Mock.start 6 [])
           (snd (retry (Mock.env raising_retry) 1%nat (Mock.start 6 [])))
           (snd (retry (Mock.env raising_retry) 2%nat
                   (snd (retry (Mock.env raising_retry) 1%nat
                           (Mock.start 6 [])))))
           [] [EvRetry 1%nat] 6%Q [1%nat] [3%nat] [1%nat] 2%nat
           (PyException "verification failed")); reflexivity.
Defined.

(** C3 as stated fails: in a run of [bash_openstack] whose third pass is
    the first retry pass, the exception that the second pending action
    raises is the result of the run; the third pending action is not
    retried and nothing is cleaned up. *)
Lemma retry_exception_ends_run :
  let r := bash_openstack (Mock.env raising_retry) 10 manager0
             [action_a; action_b] no_kwargs (Mock.start 0 []) in
  result r = Exc (PyException "verification failed")
  /\ calls r
     = [EvSsh "controller";
        EvExecuteOnAll [] "rm -f /var/log/nova/*.log";
        EvChoice; EvInvoke action_a; EvSleep three_seconds;
        EvChoice; EvInvoke action_a; EvSleep three_seconds;
        EvChoice; EvInvoke action_a; EvRetry 1%nat; EvRetry 2%nat].
Proof. cbv zeta. split; vm_compute; reflexivity. Qed.

(** C4 as stated fails: a pass in cooldown that waits for a pending action
    invokes nothing and yet moves the counter from 0 to 1. *)
Lemma logcheck_counts_passes :
  let r := iteration (Mock.env Mock.quiet) (Mock.frame [] [action_a] 10)
             (mkLoop [1%nat] 20%Q true 0 true) (Mock.start 20 []) in
  result r = Val (Continue (mkLoop [1%nat] 20%Q true 1 true))
  /\ count_calls is_invoke (calls r) = O
  /\ calls r = [EvSleep three_seconds].
Proof. cbv zeta. repeat split; vm_compute; reflexivity. Qed.

(** The logs of every node show an error. *)
Definition errors_logged : Mock.Script :=
  Mock.mkScript (fun _ _ => Returned false)
    (fun _ _ => Raised (PyException "NotFound"))
    (fun _ => "nova-compute.log: ERROR boom")
    (Returned "") (fun _ _ => Returned None).

Lemma logcheck_tripwire_witness :
  result (run_loop (Mock.env errors_logged) 1
            (Mock.frame ["compute1"] [action_a] 1000)
            (mkLoop [] 0%Q false 101 true) (Mock.start 0 []))
  = Val false.
Proof.
  destruct (logcheck_tripwire Mock.World nat (Mock.env errors_logged)
              (Mock.frame ["compute1"] [action_a] 1000) 0
              (mkLoop [] 0%Q false 101 true) (mkLoop [] 0%Q false 101 true)
              (Mock.start 0 [])
              (Mock.mkWorld 3 (fun _ => O) (fun _ => O) [] 1)
              [EvChoice; EvInvoke action_a; EvSleep three_seconds]
              eq_refl) as (_ & _ & H).
  destruct (H ltac:(simpl; lia)) as (_ & _ & H3).
  destruct (H3 eq_refl) as (_ & ->). reflexivity.
Defined.

Lemma cooldown_gating_witness :
  let env := Mock.env second_call in
  let f := Mock.frame [] [action_a] 10 in
  let s := mkLoop [1%nat] 0%Q true 0 true in
  let w := Mock.start 20 [] in
  count_calls is_action (calls (run_loop env 5 f s w)) = O
  /\ (forall s', result (iteration env f s w) = Val (Continue s') ->
                 cooldown s' = true)
  /\ (forall s', result (while_true env 5 f s w) = Val s' ->
                 cooldown s' = true).
Proof.
  cbv zeta.
  apply (cooldown_gating Mock.World nat (Mock.env second_call)
           (Mock.frame [] [action_a] 10) 5
           (mkLoop [1%nat] 0%Q true 0 true) (Mock.start 20 [])).
  reflexivity.
Defined.

(** A server that never goes away, and one that is gone at the 61st look. *)
Definition stuck_server : Mock.Script :=
  Mock.mkScript (fun _ _ => Returned false) (fun _ _ => Returned tt)
    (fun _ => "") (Returned "") (fun _ _ => Returned None).

Definition late_server : Mock.Script :=
  Mock.mkScript (fun _ _ => Returned false)
    (fun _ n => if (n <? 60)%nat then Returned tt
                else Raised (PyException "NotFound"))
    (fun _ => "") (Returned "") (fun _ _ => Returned None).

Definition one_vm : list instance := [("vm1", Some ("vm1", "ACTIVE"))].

(** C6 as stated fails: the wait looks for the server 61 times, not 60,
    before it gives up; and a server that is still there at the 60th look
    and gone at the 61st counts as deleted. *)
Lemma wait_killed_polls_61 :
  (let r := wait_killed (Mock.env stuck_server) poll_budget
              (Mock.frame [] [action_a] 10) "vm1" 0 (Mock.start 0 one_vm) in
   result r = Exc (PyException "Cleanup timed out")
   /\ count_calls (is_get_server "vm1") (calls r) = 61%nat)
  /\ (let r := wait_killed (Mock.env late_server) poll_budget
                 (Mock.frame [] [action_a] 10) "vm1" 0
                 (Mock.start 0 one_vm) in
      result r = Val tt
      /\ count_calls (is_get_server "vm1") (calls r) = 61%nat).
Proof. cbv zeta. repeat split; vm_compute; reflexivity. Qed.

Lemma cleanup_timeout_witness :
  result (finish (Mock.env stuck_server) (Mock.frame [] [action_a] 10)
            (mkLoop [] 0%Q true 0 true) (Mock.start 0 one_vm))
  = Exc (PyException "Cleanup timed out").
Proof.
  destruct (cleanup_timeout Mock.World nat (Mock.env stuck_server)
              (Mock.frame [] [action_a] 10) (mkLoop [] 0%Q true 0 true)
              [] [] "vm1" "vm1"
              (Mock.start 0 one_vm) (Mock.start 0 one_vm)
              (Mock.start 0 one_vm) (Mock.start 0 one_vm) []
              eq_refl eq_refl (vanish_nil _ _))
    as (_ & _ & _ & Hstuck).
  destruct (Hstuck tt
              (snd (get_server (Mock.env stuck_server) "vm1"
                      (after_polls (Mock.env stuck_server) 60 "vm1"
                         (Mock.start 0 one_vm))))) as (_ & _ & ->).
  - vm_compute. reflexivity.
  - reflexivity.
  - reflexivity.
Defined.

(** The servers client cannot reach the API. *)
Definition unreachable_api : Mock.Script :=
  Mock.mkScript (fun _ _ => Returned false)
    (fun _ _ => Raised (PyException "Connection refused"))
    (fun _ => "") (Returned "") (fun _ _ => Returned None).

Lemma get_server_error_confirms_witness :
  let env := Mock.env unreachable_api in
  let f := Mock.frame [] [action_a] 10 in
  let w := Mock.start 0 one_vm in
  let w1 := snd (get_server env "vm1" w) in
  (forall (fuel : nat) (i : Z),
     wait_killed env (S fuel) f "vm1" i w
     = mkReply (Val tt) w1 [EvGetServer "vm1"])
  /\ confirm_killed env f [("vm1", "ACTIVE")] w
     = let r := confirm_killed env f []
                  (delete_instance_state env "vm1" w1) in
       mkReply (result r) (world r)
         (EvGetServer "vm1" :: EvForget "vm1" :: calls r).
Proof.
  cbv zeta.
  apply (get_server_error_confirms Mock.World nat (Mock.env unreachable_api)
           (Mock.frame [] [action_a] 10) "vm1" "ACTIVE" []
           (Mock.start 0 one_vm)
           (snd (get_server (Mock.env unreachable_api) "vm1"
                   (Mock.start 0 one_vm)))
           (PyException "Connection refused")).
  reflexivity.
Defined.

(** A whole run on the quiet cluster with one server to delete: four
    actions in ten seconds, cooldown at the fifth pass, one check of the
    logs, the server deleted and forgotten, and the flag [True]. *)
Example quiet_run_succeeds :
  let r := bash_openstack (Mock.env Mock.quiet) 10 manager0
             [action_a; action_b] no_kwargs (Mock.start 0 one_vm) in
  result r = Val true
  /\ Mock.instances (world r) = []
  /\ calls r
     = [EvSsh "controller";
        EvExecuteOnAll [] "rm -f /var/log/nova/*.log";
        EvChoice; EvInvoke action_a; EvSleep three_seconds;
        EvChoice; EvInvoke action_a; EvSleep three_seconds;
        EvChoice; EvInvoke action_a; EvSleep three_seconds;
        EvChoice; EvInvoke action_a; EvSleep three_seconds;
        EvLogCheck;
        EvDeleteServer "vm1"; EvGetServer "vm1"; EvForget "vm1"].
Proof. cbv zeta. repeat split; vm_compute; reflexivity. Qed.

(** * Further properties of the driver *)

(** ** The action pool, for every workload *)

Lemma expand_In (choice_spec : list BasherChoice) (c : BasherChoice) :
  In c (CreateCases.expand choice_spec)
  <-> In c choice_spec /\ 0 < probability c.
Proof.
  unfold CreateCases.expand. rewrite in_flat_map. split.
  - intros (x & Hx & Hr). apply repeat_spec in Hr as Heq. subst x.
    split; [assumption|].
    destruct (Z.to_nat (probability c)) eqn:E; [destruct Hr|lia].
  - intros (Hc & Hp). exists c. split; [assumption|].
    destruct (Z.to_nat (probability c)) eqn:E; [lia|now left].
Qed.

(** X1: what [_create_cases] does on every workload.  The empty list fails
    the assertion; a list whose first weight is zero or negative raises
    [UnboundLocalError]; any other list gives the choices repeated by
    weight, in the order of the list, when the weights add up to 100, and
    fails the assertion otherwise. *)
Theorem create_cases_closed_form (choice_spec : list BasherChoice) :
  CreateCases._create_cases choice_spec
  = match choice_spec with
    | [] => Exc AssertionError
    | c :: _ =>
        if probability c <=? 0 then Exc UnboundLocalError
        else if CreateCases.sum_weights choice_spec =? 100
             then Val (CreateCases.expand choice_spec)
             else Exc AssertionError
    end.
Proof.
  destruct choice_spec as [|c rest]; [reflexivity|].
  destruct (Z.leb_spec (probability c) 0) as [Hle|Hgt].
  - now apply create_cases_first_not_positive.
  - now apply create_cases_first_positive.
Qed.

Lemma create_cases_val (choice_spec pool : list BasherChoice) :
  CreateCases._create_cases choice_spec = Val pool ->
  pool = CreateCases.expand choice_spec
  /\ CreateCases.sum_weights choice_spec = 100.
Proof.
  destruct choice_spec as [|c rest]; [discriminate|].
  destruct (Z.leb_spec (probability c) 0) as [Hle|Hgt].
  - rewrite create_cases_first_not_positive by assumption. discriminate.
  - rewrite create_cases_first_positive by assumption.
    destruct (Z.eqb_spec (CreateCases.sum_weights (c :: rest)) 100);
      [|discriminate].
    intros [= <-]. now split.
Qed.

(** X2: a pool that [_create_cases] returns is never shorter than 100 (so
    never empty), holds only choices of the workload whose weight is
    positive, and has exactly 100 entries when no weight is negative. *)
Theorem create_cases_pool_members (choice_spec pool : list BasherChoice) :
  CreateCases._create_cases choice_spec = Val pool ->
  (100 <= List.length pool)%nat
  /\ (forall c, In c pool -> In c choice_spec /\ 0 < probability c)
  /\ (Forall (fun c => 0 <= probability c) choice_spec ->
      List.length pool = 100%nat).
Proof.
  intro H. apply create_cases_val in H as [-> Hsum].
  pose proof (expand_length choice_spec) as Hlen.
  pose proof (sum_positive_ge choice_spec) as Hge.
  split; [lia|]. split.
  - intros c Hc. now apply expand_In.
  - intro Hall. apply sum_positive_nonneg in Hall. lia.
Qed.

Lemma create_cases_pool_members_witness :
  (100 <= List.length
            (CreateCases.expand [mkChoice "A" 60; mkChoice "B" 40]))%nat
  /\ (forall c,
        In c (CreateCases.expand [mkChoice "A" 60; mkChoice "B" 40]) ->
        In c [mkChoice "A" 60; mkChoice "B" 40] /\ 0 < probability c)
  /\ (Forall (fun c => 0 <= probability c)
        [mkChoice "A" 60; mkChoice "B" 40] ->
      List.length (CreateCases.expand [mkChoice "A" 60; mkChoice "B" 40])
      = 100%nat).
Proof.
  apply (create_cases_pool_members [mkChoice "A" 60; mkChoice "B" 40]).
  reflexivity.
Defined.

(** X3: a workload whose weights do not add up to 100 never gets a pool:
    the build raises, by the assertion or, when the first weight is not
    positive, by the unbound local. *)
Theorem create_cases_bad_sum_raises (choice_spec : list BasherChoice) :
  CreateCases.sum_weights choice_spec <> 100 ->
  CreateCases._create_cases choice_spec = Exc AssertionError
  \/ CreateCases._create_cases choice_spec = Exc UnboundLocalError.
Proof.
  intro Hsum. destruct choice_spec as [|c rest]; [now left|].
  destruct (Z.leb_spec (probability c) 0) as [Hle|Hgt].
  - right. now apply create_cases_first_not_positive.
  - left. now apply create_cases_bad_sum.
Qed.

Lemma create_cases_bad_sum_raises_witness :
  CreateCases._create_cases [mkChoice "A" 60; mkChoice "B" 30]
  = Exc AssertionError
  \/ CreateCases._create_cases [mkChoice "A" 60; mkChoice "B" 30]
     = Exc UnboundLocalError.
Proof.
  apply (create_cases_bad_sum_raises [mkChoice "A" 60; mkChoice "B" 30]).
  simpl. lia.
Defined.

(** ** Node discovery, for every listing *)

Lemma nth_index (words : list string) (k : nat) :
  (k < List.length words)%nat ->
  Py.index words k = Val (nth k words EmptyString).
Proof.
  intro H. unfold Py.index.
  now rewrite (nth_error_nth' words EmptyString H).
Qed.

Lemma scan_lines_closed_form (lines : list string) :
  forall nodes,
    scan_lines lines nodes
    = if existsb short_line lines then Exc IndexError
      else Val (nodes ++ map listed_node (filter reports_up lines)).
Proof.
  induction lines as [|line rest IH]; intro nodes.
  - cbn. now rewrite app_nil_r.
  - cbn [existsb]. destruct (short_line line) eqn:Hshort.
    + cbn [orb]. apply scan_lines_short. apply Exists_cons_hd.
      unfold short_line in Hshort. cbv zeta in Hshort.
      apply andb_true_iff in Hshort as [H1 H2].
      apply Nat.leb_le in H1, H2. lia.
    + cbn [orb scan_lines filter]. unfold short_line in Hshort.
      cbv zeta in Hshort. unfold reports_up, listed_node.
      destruct (Nat.ltb_spec 0 (List.length (Py.split line))) as [Hpos|Hz].
      * assert (4 < List.length (Py.split line))%nat as Hlong.
        { apply andb_false_iff in Hshort as [H|H];
            [apply Nat.leb_gt in H | apply Nat.leb_gt in H]; lia. }
        rewrite nth_index by lia.
        destruct (String.eqb (nth 4 (Py.split line) "") ":-)").
        -- rewrite nth_index by lia. rewrite IH. cbn [map].
           now rewrite <- app_assoc.
        -- apply IH.
      * assert (Py.split line = []) as ->
          by (destruct (Py.split line); [reflexivity|cbn in Hz; lia]).
        cbn. apply IH.
Qed.

(** X4: what node discovery makes of a listing.  When [ssh] returns the
    listing, the result is [IndexError] if some line has one to four words,
    and otherwise the second words of the lines whose fifth word is the
    smiley, in the order of the listing; one remote command is run. *)
Theorem get_compute_nodes_closed_form (World Handle : Type)
  (env : Env World Handle) (key usr controller out : string) (w w' : World) :
  ssh env (Some key) (Some usr) controller
    "nova-manage service list | grep ^nova-compute" w = (Returned out, w') ->
  _get_compute_nodes env (Some key) (Some usr) controller w
  = mkReply
      (if existsb short_line (Py.split_on Py.newline out)
       then Exc IndexError
       else Val (map listed_node
                   (filter reports_up (Py.split_on Py.newline out))))
      w' [EvSsh controller].
Proof.
  intro Hssh. unfold _get_compute_nodes, bind, call, lift. rewrite Hssh.
  cbn. now rewrite scan_lines_closed_form.
Qed.

Definition two_node_listing : string :=
  String.concat (String Py.newline EmptyString)
    ["nova-compute xg11eth0 nova enabled :-) 2011-10-31 18:57:46";
     "nova-compute xg12eth0 nova enabled XXX 2011-10-31 18:57:46";
     "nova-compute xg13eth0 nova enabled :-) 2011-10-31 18:57:47"; ""].

Definition two_node_script : Mock.Script :=
  Mock.mkScript (fun _ _ => Returned false)
    (fun _ _ => Raised (PyException "NotFound")) (fun _ => "")
    (Returned two_node_listing) (fun _ _ => Returned None).

Lemma get_compute_nodes_closed_form_witness :
  _get_compute_nodes (Mock.env two_node_script) (Some "key") (Some "root")
    "controller" (Mock.start 0 [])
  = mkReply (Val ["xg11eth0"; "xg13eth0"]) (Mock.start 0 [])
      [EvSsh "controller"].
Proof.
  rewrite (get_compute_nodes_closed_form Mock.World nat
             (Mock.env two_node_script) "key" "root" "controller"
             two_node_listing (Mock.start 0 []) (Mock.start 0 []) eq_refl).
  reflexivity.
Defined.

Lemma split_clean (s : string) : Forall clean_word (Py.split s).
Proof.
  induction s as [|c rest IH]; [constructor|].
  cbn [Py.split]. destruct (Py.is_space c) eqn:Hc; [exact IH|].
  assert (clean_word (String c EmptyString)) as Hone
    by (split; [discriminate | cbn; now rewrite Hc]).
  destruct rest as [|c' rest']; [constructor; [exact Hone|constructor]|].
  destruct (Py.is_space c') eqn:Hc'; [now constructor|].
  destruct (Py.split (String c' rest')) as [|word ws];
    [constructor; [exact Hone|constructor]|].
  inversion IH as [|? ? [Hne Hns] Hws]; subst.
  constructor; [|assumption]. split; [discriminate|].
  cbn. now rewrite Hc, Hns.
Qed.

Lemma scan_lines_clean (lines : list string) :
  forall nodes found,
    scan_lines lines nodes = Val found ->
    Forall clean_word nodes -> Forall clean_word found.
Proof.
  induction lines as [|line rest IH]; intros nodes found H Hnodes.
  - cbn in H. now injection H as <-.
  - cbn [scan_lines] in H.
    destruct (0 <? List.length (Py.split line))%nat; [|now apply (IH nodes)].
    unfold Py.index in H.
    destruct (nth_error (Py.split line) 4) as [w4|]; [|discriminate].
    destruct (String.eqb w4 ":-)"); [|now apply (IH nodes)].
    destruct (nth_error (Py.split line) 1) as [w1|] eqn:E1; [|discriminate].
    apply (IH (nodes ++ [w1])); [assumption|].
    apply Forall_app. split; [assumption|]. constructor; [|constructor].
    apply nth_error_In in E1.
    pose proof (split_clean line) as Hall. rewrite Forall_forall in Hall.
    now apply Hall.
Qed.

(** X5: every node name that node discovery returns is a word: it is not
    empty and has no white space in it, whatever the listing was. *)
Theorem get_compute_nodes_clean (World Handle : Type) (env : Env World Handle)
  (keypath user : option string) (controller : string) (w : World)
  (nodes : list string) :
  result (_get_compute_nodes env keypath user controller w) = Val nodes ->
  Forall clean_word nodes.
Proof.
  unfold _get_compute_nodes.
  destruct keypath as [key|]; [destruct user as [usr|]|];
    try (cbn; intros [= <-]; constructor).
  unfold bind, call, lift.
  destruct (ssh env (Some key) (Some usr) controller
              "nova-manage service list | grep ^nova-compute" w)
    as [[out|e] w1]; cbn [of_answer result world calls]; [|discriminate].
  intro H. apply (scan_lines_clean _ _ _ H). constructor.
Qed.

Lemma get_compute_nodes_clean_witness :
  Forall clean_word ["xg11eth0"; "xg13eth0"].
Proof.
  apply (get_compute_nodes_clean Mock.World nat (Mock.env two_node_script)
           (Some "key") (Some "root") "controller" (Mock.start 0 [])).
  reflexivity.
Defined.

(** ** The failure detector, the retry pass and the wait *)

Section Passes.

Variables World Handle : Type.
Variable env : Env World Handle.
Variable f : Frame.

Lemma bind_update_step {B : Type} (ev : list (Event Handle))
  (g : World -> World) (k : unit -> Step World Handle B) (w : World) :
  bind (update ev g) k w
  = let r := k tt (g w) in mkReply (result r) (world r) (ev ++ calls r).
Proof. reflexivity. Qed.

Lemma grep_nodes_reads (key usr : option string) (grep : string)
  (nodes : list string) :
  forall w : World,
    let r := grep_nodes env key usr grep nodes w in
    exists n : nat,
      calls r = map EvSsh (firstn n nodes)
      /\ ((result r = Val false /\ n = List.length nodes)
          \/ (result r = Val true /\ (1 <= n <= List.length nodes)%nat)).
Proof.
  induction nodes as [|node rest IH]; intro w; cbv zeta; cbn [grep_nodes].
  - exists O. split; [reflexivity|]. left. now split.
  - unfold bind, call_total.
    destruct (ssh_nocheck env key usr node grep w) as [errors w1].
    cbn [result world calls].
    destruct (0 <? String.length errors)%nat.
    + exists 1%nat. split; [reflexivity|]. right. cbn. split; [reflexivity|lia].
    + destruct (IH w1) as (n & Hc & Hr). cbv zeta in Hc, Hr.
      exists (S n). cbn [firstn map app List.length]. split.
      * now rewrite Hc.
      * destruct Hr as [[Hr ->]|[Hr Hn]]; [left|right]; (split; [exact Hr|]);
          lia.
Qed.

Lemma grep_nodes_quiet (key usr : option string) (grep : string)
  (pre : list string) :
  forall (w w1 : World),
    quiet_reads env key usr grep pre w = Some w1 ->
    forall rest : list string,
      grep_nodes env key usr grep (pre ++ rest) w
      = let r := grep_nodes env key usr grep rest w1 in
        mkReply (result r) (world r) (map EvSsh pre ++ calls r).
Proof.
  induction pre as [|node pre IH]; intros w w1 Hq rest.
  - cbn in Hq. injection Hq as <-. cbn [app map]. cbv zeta.
    apply reply_eta.
  - cbn [quiet_reads] in Hq. cbn [app grep_nodes].
    unfold bind at 1, call_total.
    destruct (ssh_nocheck env key usr node grep w) as [errors w0].
    destruct errors as [|c errors]; [|discriminate Hq].
    cbn [result world calls String.length Nat.ltb Nat.leb].
    rewrite (IH w0 w1 Hq rest). reflexivity.
Qed.

(** X6: a check of the logs greps the nodes in the order of the list.
    When the grep prints nothing on any node, the answer is [False], given
    after every node was read.  The first node on which the grep prints
    something makes the answer [True], and the nodes behind it are not
    read. *)
Theorem error_in_logs_reads_in_order (key usr : option string)
  (dir : string) (pre : list string) (w w1 : World) :
  quiet_reads env key usr (grep_command dir) pre w = Some w1 ->
  _error_in_logs env key dir usr pre w
  = mkReply (Val false) w1 (EvLogCheck :: map EvSsh pre)
  /\ forall (node : string) (post : list string) (errors : string)
            (w2 : World),
       ssh_nocheck env key usr node (grep_command dir) w1 = (errors, w2) ->
       errors <> EmptyString ->
       _error_in_logs env key dir usr (pre ++ node :: post) w
       = mkReply (Val true) w2 (EvLogCheck :: map EvSsh (pre ++ [node])).
Proof.
  intro Hq. split.
  - unfold _error_in_logs. rewrite bind_update_step. cbv zeta.
    pose proof (grep_nodes_quiet key usr _ pre w w1 Hq []) as Hg.
    cbv zeta in Hg. cbn [grep_nodes ret result world calls] in Hg.
    rewrite !app_nil_r in Hg. rewrite Hg. reflexivity.
  - intros node post errors w2 Hssh Hne. unfold _error_in_logs.
    rewrite bind_update_step. cbv zeta.
    rewrite (grep_nodes_quiet key usr _ pre w w1 Hq (node :: post)).
    cbv zeta. cbn [grep_nodes]. unfold bind, call_total. rewrite Hssh.
    cbn [result world calls].
    destruct errors as [|c errors]; [contradiction|].
    cbn [String.length Nat.ltb Nat.leb ret result world calls app].
    now rewrite map_app.
Qed.

Lemma drain_keeps_order (pool : list Handle) :
  forall (acc : list Handle) (w : World),
    let r := drain env pool acc w in
    (exists n, calls r = map EvRetry (firstn n pool))
    /\ forall kept,
         result r = Val kept ->
         calls r = map EvRetry pool
         /\ exists kept', kept = acc ++ kept' /\ subseq kept' pool.
Proof.
  induction pool as [|v rest IH]; intros acc w; cbv zeta.
  - cbn. split; [now exists O|]. intros kept [= <-]. split; [reflexivity|].
    exists []. split; [now rewrite app_nil_r|constructor].
  - destruct (retry env v w) as [[b|e] w1] eqn:Hv.
    + rewrite (drain_cons _ _ env v rest acc w w1 b Hv). cbv zeta.
      cbn [result calls].
      destruct (IH (if negb b then acc ++ [v] else acc) w1)
        as ((n & Hn) & Hval). cbv zeta in Hn, Hval.
      split; [exists (S n); cbn; now rewrite Hn|].
      intros kept Hk. destruct (Hval kept Hk) as (Hc & kept' & -> & Hs).
      split; [cbn; now rewrite Hc|].
      destruct b; cbn [negb].
      * exists kept'. split; [reflexivity|now constructor].
      * exists (v :: kept'). split; [now rewrite <- app_assoc|].
        now constructor.
    + rewrite (drain_raises _ _ env v rest acc w w1 e Hv). cbn.
      split; [now exists 1%nat|]. discriminate.
Qed.

Lemma subseq_length {A : Type} (l1 l2 : list A) :
  subseq l1 l2 -> (List.length l1 <= List.length l2)%nat.
Proof. induction 1; cbn; lia. Qed.

Lemma subseq_incl {A : Type} (l1 l2 : list A) :
  subseq l1 l2 -> incl l1 l2.
Proof.
  induction 1 as [|x l1 l2 _ IH|x l1 l2 _ IH]; intros a Ha.
  - destruct Ha.
  - right. now apply IH.
  - destruct Ha as [->|Ha]; [now left|right; now apply IH].
Qed.

Lemma subseq_refl {A : Type} (l : list A) : subseq l l.
Proof. induction l; now constructor. Qed.

Lemma subseq_trans {A : Type} (l1 l2 l3 : list A) :
  subseq l1 l2 -> subseq l2 l3 -> subseq l1 l3.
Proof.
  intros H12 H23. revert l1 H12.
  induction H23 as [|x l2 l3 _ IH|x l2 l3 _ IH]; intros l1 H12.
  - assumption.
  - constructor. now apply IH.
  - inversion H12; subst; constructor; now apply IH.
Qed.

Lemma drain_retries_subseq (pool kept : list Handle) (w : World) :
  result (drain env pool [] w) = Val kept ->
  calls (drain env pool [] w) = map EvRetry pool /\ subseq kept pool.
Proof.
  intro H. destruct (drain_keeps_order pool [] w) as (_ & Hval).
  destruct (Hval kept H) as (Hc & kept' & -> & Hs). now split.
Qed.

(** X7: a retry pass that returns has called [retry()] on every handle of
    the pool exactly once, in the order of the pool, and what it keeps is
    the pool with some handles left out: nothing is added, nothing is
    reordered. *)
Theorem drain_retries_each_once (pool kept : list Handle) (w : World) :
  result (drain env pool [] w) = Val kept ->
  calls (drain env pool [] w) = map EvRetry pool
  /\ subseq kept pool
  /\ (List.length kept <= List.length pool)%nat.
Proof.
  intro H. destruct (drain_keeps_order pool [] w) as (_ & Hval).
  destruct (Hval kept H) as (Hc & kept' & -> & Hs). cbn [app].
  split; [exact Hc|]. split; [exact Hs|]. now apply subseq_length.
Qed.

Lemma wait_killed_any_fuel (id : string) (fuel1 : nat) :
  forall (fuel2 : nat) (i : Z) (w : World),
    i <= 60 -> 61 - i <= Z.of_nat fuel1 -> 61 - i <= Z.of_nat fuel2 ->
    wait_killed env fuel1 f id i w = wait_killed env fuel2 f id i w.
Proof.
  induction fuel1 as [|fuel1 IH]; intros fuel2 i w Hi H1 H2; [lia|].
  destruct fuel2 as [|fuel2]; [lia|].
  cbn [wait_killed]. apply bind_ext. intros [u|e] w1; [|reflexivity].
  cbv zeta. destruct (Z.ltb_spec 60 (i + 1)); [reflexivity|].
  apply bind_ext. intros _ w2. apply IH; lia.
Qed.

(** X8: the wait for a server ends within 61 passes of its loop: every
    larger bound on the passes gives the same result, which is the normal
    end of the wait or [Exception("Cleanup timed out")]. *)
Theorem wait_killed_terminates (id : string) (fuel : nat) (w : World) :
  (61 <= fuel)%nat ->
  wait_killed env fuel f id 0 w = wait_killed env poll_budget f id 0 w
  /\ (result (wait_killed env fuel f id 0 w) = Val tt
      \/ result (wait_killed env fuel f id 0 w)
         = Exc (PyException "Cleanup timed out")).
Proof.
  intro Hfuel.
  assert (wait_killed env fuel f id 0 w
          = wait_killed env poll_budget f id 0 w) as Heq
    by (apply wait_killed_any_fuel; unfold poll_budget; lia).
  split; [exact Heq|]. rewrite Heq.
  destruct (wait_killed_from World Handle env f id poll_budget 0 w)
    as (_ & _ & [(Hr & _)|(Hr & _)]); [lia|cbn; lia| |]; auto.
Qed.

End Passes.

(** The grep prints something on the second node only. *)
Definition second_node_errors : Mock.Script :=
  Mock.mkScript (fun _ _ => Returned false)
    (fun _ _ => Raised (PyException "NotFound"))
    (fun node => if String.eqb node "compute2" then "n.log: TRACE" else "")
    (Returned "") (fun _ _ => Returned None).

Lemma error_in_logs_reads_in_order_witness :
  _error_in_logs (Mock.env second_node_errors) (Some "key") "/var/log/nova"
    (Some "root") ["compute1"] (Mock.start 0 [])
  = mkReply (Val false) (Mock.start 0 []) [EvLogCheck; EvSsh "compute1"]
  /\ _error_in_logs (Mock.env second_node_errors) (Some "key")
       "/var/log/nova" (Some "root") ["compute1"; "compute2"; "compute3"]
       (Mock.start 0 [])
     = mkReply (Val true) (Mock.start 0 [])
         [EvLogCheck; EvSsh "compute1"; EvSsh "compute2"].
Proof.
  destruct (error_in_logs_reads_in_order Mock.World nat
              (Mock.env second_node_errors) (Some "key") (Some "root")
              "/var/log/nova" ["compute1"] (Mock.start 0 [])
              (Mock.start 0 []) eq_refl) as (Hquiet & Hfirst).
  split; [exact Hquiet|].
  apply (Hfirst "compute2" ["compute3"] "n.log: TRACE" (Mock.start 0 []));
    [reflexivity|discriminate].
Defined.

Lemma drain_retries_each_once_witness :
  calls (drain (Mock.env second_call) [0; 1; 2]%nat [] (Mock.start 0 []))
  = map EvRetry [0; 1; 2]%nat
  /\ subseq [0; 1; 2]%nat [0; 1; 2]%nat
  /\ (List.length [0; 1; 2]%nat <= List.length [0; 1; 2]%nat)%nat.
Proof.
  apply (drain_retries_each_once Mock.World nat (Mock.env second_call)
           [0; 1; 2]%nat [0; 1; 2]%nat (Mock.start 0 [])).
  reflexivity.
Defined.

Lemma wait_killed_terminates_witness :
  wait_killed (Mock.env stuck_server) 100 (Mock.frame [] [action_a] 10)
    "vm1" 0 (Mock.start 0 one_vm)
  = wait_killed (Mock.env stuck_server) poll_budget
      (Mock.frame [] [action_a] 10) "vm1" 0 (Mock.start 0 one_vm)
  /\ (result (wait_killed (Mock.env stuck_server) 100
                (Mock.frame [] [action_a] 10) "vm1" 0 (Mock.start 0 one_vm))
      = Val tt
      \/ result (wait_killed (Mock.env stuck_server) 100
                   (Mock.frame [] [action_a] 10) "vm1" 0
                   (Mock.start 0 one_vm))
         = Exc (PyException "Cleanup timed out")).
Proof.
  apply (wait_killed_terminates Mock.World nat (Mock.env stuck_server)
           (Mock.frame [] [action_a] 10) "vm1" 100 (Mock.start 0 one_vm)).
  lia.
Defined.

(** ** Which calls a step can make *)

Section Calls.

Variables World Handle : Type.
Variable env : Env World Handle.
Variable f : Frame.
Variable p : Event Handle -> bool.

Lemma call_without {A : Type} (ev : list (Event Handle))
  (g : World -> answer A * World) :
  Forall (fun e => p e = false) ev -> without p (fun _ => True) (call ev g).
Proof.
  intros H w. unfold call. destruct (g w) as [a w1]. cbn. now split.
Qed.

Lemma call_total_without {A : Type} (ev : list (Event Handle))
  (g : World -> A * World) :
  Forall (fun e => p e = false) ev ->
  without p (fun _ => True) (call_total ev g).
Proof.
  intros H w. unfold call_total. destruct (g w) as [a w1]. cbn. now split.
Qed.

Lemma update_without (ev : list (Event Handle)) (g : World -> World) :
  Forall (fun e => p e = false) ev -> without p (fun _ => True) (update ev g).
Proof. intros H w. cbn. now split. Qed.

Lemma try_without {A : Type} (m : Step World Handle A) :
  without p (fun _ => True) m -> without p (fun _ => True) (try_ m).
Proof.
  intros Hm w. destruct (Hm w) as [Hc _]. unfold try_.
  destruct (m w) as [[a| |] w1 ev1]; cbn in *; now split.
Qed.

Lemma lift_without {A : Type} (o : outcome A) :
  without p (fun a => o = Val a) (lift o : Step World Handle A).
Proof. intro w. cbn. split; [constructor|]. now intros a ->. Qed.

Lemma for_each_without {X : Type} (xs : list X)
  (body : X -> Step World Handle unit) :
  (forall x, In x xs -> without p (fun _ => True) (body x)) ->
  without p (fun _ => True) (for_each xs body).
Proof.
  induction xs as [|x xs IH]; intro Hb; cbn [for_each].
  - now apply without_ret.
  - apply (without_bind p (fun _ => True)); [apply Hb; now left|].
    intros _ _. apply IH. intros y Hy. apply Hb. now right.
Qed.

Lemma error_in_logs_without :
  p EvLogCheck = false -> (forall node, p (EvSsh node) = false) ->
  without p (fun _ => True) (error_in_logs env f).
Proof.
  intros p_logcheck p_ssh w. split; [|trivial].
  destruct (error_in_logs_returns World Handle env f w)
    as (b & l & _ & -> & Hl).
  constructor; [exact p_logcheck|].
  eapply Forall_impl; [|exact Hl]. intros [] He; try discriminate.
  apply p_ssh.
Qed.

Lemma wait_killed_without (id : string) (fuel : nat) :
  without p (fun _ => True) (error_in_logs env f) ->
  (forall t, p (EvSleep t) = false) ->
  p (EvGetServer id) = false ->
  forall i : Z, without p (fun _ => True) (wait_killed env fuel f id i).
Proof.
  intros Hdet p_sleep Hid.
  induction fuel as [|fuel IH]; intro i; cbn [wait_killed].
  - apply without_out_of_fuel.
  - apply (without_bind p (fun _ => True)).
    + apply try_without, call_without. now repeat constructor.
    + intros [u|e] _; [|now apply without_ret].
      destruct (60 <? i + 1).
      * apply (without_bind p (fun _ => True)); [exact Hdet|].
        intros _ _. apply without_raise.
      * apply (without_bind p (fun _ => True)).
        -- apply update_without. repeat constructor. apply p_sleep.
        -- intros _ _. apply IH.
Qed.

Lemma drain_without (pool acc : list Handle) :
  (forall h, p (EvRetry h) = false) ->
  without p (fun _ => True) (drain env pool acc).
Proof.
  intro Hp. revert acc. induction pool as [|v rest IH]; intro acc;
    cbn [drain].
  - now apply without_ret.
  - apply (without_bind p (fun _ => True)).
    + apply call_without. repeat constructor. apply Hp.
    + intros b _. apply IH.
Qed.

Lemma retry_verifications_without (s : Loop Handle) :
  (forall h, p (EvRetry h) = false) ->
  without p (fun _ => True) (retry_verifications env s).
Proof.
  intro Hp. unfold retry_verifications.
  apply (without_bind p (fun _ => True));
    [apply call_total_without; constructor|].
  intros t _. destruct (Qlt_bool 5 (t - last_retry s)).
  - apply (without_bind p (fun _ => True)); [now apply drain_without|].
    intros l _.
    apply (without_bind p (fun _ => True));
      [apply call_total_without; constructor|].
    intros t' _. now apply without_ret.
  - now apply without_ret.
Qed.

End Calls.

(** ** The order of the cleanup *)

Section CleanupOrder.

Variables World Handle : Type.
Variable env : Env World Handle.
Variable f : Frame.

Lemma active_vms_ids (vms : list instance) (id : string) :
  In id (map fst (active_vms vms))
  <-> exists k, In (k, Some (id, "ACTIVE")) vms.
Proof.
  unfold active_vms. rewrite in_map_iff. split.
  - intros ([id' st] & Heq & Hin). cbn in Heq. subst id'.
    apply in_flat_map in Hin as ([k v] & Hk & Hv).
    cbn [snd] in Hv. destruct v as [[id'' st']|]; [|destruct Hv].
    destruct (String.eqb_spec st' "ACTIVE") as [Hst|]; [|destruct Hv].
    destruct Hv as [Hv|[]]. injection Hv as Hid _. subst id'' st'.
    now exists k.
  - intros (k & Hk). exists (id, "ACTIVE"). split; [reflexivity|].
    apply in_flat_map. exists (k, Some (id, "ACTIVE")). split; [assumption|].
    cbn. now left.
Qed.

Lemma delete_all_calls (targets : list (string * string)) :
  forall w : World,
    let r := delete_all env targets w in
    (exists n, calls r = map EvDeleteServer (firstn n (map fst targets)))
    /\ (result r = Val tt ->
        calls r = map EvDeleteServer (map fst targets)).
Proof.
  unfold delete_all.
  induction targets as [|t rest IH]; intro w; cbv zeta; cbn [for_each].
  - cbn. split; [now exists O|reflexivity].
  - cbn [map]. destruct (delete_server env (fst t) w) as [[u|e] w1] eqn:Hd.
    + assert (call [EvDeleteServer (fst t)] (delete_server env (fst t)) w
              = mkReply (Val u) w1 [@EvDeleteServer Handle (fst t)]) as Hc
        by (unfold call; now rewrite Hd).
      rewrite (bind_val _ _ _ _ _ _ Hc). cbn [result calls app].
      destruct (IH w1) as ((n & Hn) & Hval). cbv zeta in Hn, Hval.
      split; [exists (S n); cbn [firstn map]; now rewrite Hn|].
      intro Hr. now rewrite Hval.
    + assert (call [EvDeleteServer (fst t)] (delete_server env (fst t)) w
              = mkReply (Exc e) w1 [@EvDeleteServer Handle (fst t)]) as Hc
        by (unfold call; now rewrite Hd).
      rewrite (bind_exc _ _ _ _ _ _ Hc). cbn [result calls].
      split; [now exists 1%nat|discriminate].
Qed.

Lemma wait_killed_no_forget (id : string) (w : World) :
  Forall (fun e => is_forget e = false /\ is_delete_server e = false)
    (calls (wait_killed env poll_budget f id 0 w)).
Proof.
  destruct (wait_killed_without World Handle env f
              (fun e => (is_forget e || is_delete_server e)%bool)
              id poll_budget
              (error_in_logs_without World Handle env f _ eq_refl
                 (fun _ => eq_refl))
              (fun _ => eq_refl) eq_refl 0 w) as [H _].
  eapply Forall_impl; [|exact H]. cbn. intros e He.
  now apply orb_false_iff in He.
Qed.

Lemma filter_nothing {A : Type} (q : A -> bool) (l : list A) :
  Forall (fun e => q e = false) l -> filter q l = [].
Proof.
  induction 1 as [|e l He _ IH]; [reflexivity|]. cbn. now rewrite He.
Qed.

Lemma confirm_killed_forgets (targets : list (string * string)) :
  forall w : World,
    let r := confirm_killed env f targets w in
    Forall (fun e => is_delete_server e = false) (calls r)
    /\ (result r = Val tt ->
        filter is_forget (calls r) = map EvForget (map fst targets)).
Proof.
  unfold confirm_killed.
  induction targets as [|t rest IH]; intro w; cbv zeta; cbn [for_each].
  - cbn. split; [constructor|reflexivity].
  - pose proof (wait_killed_no_forget (fst t) w) as Hw.
    assert (Forall (fun e : Event Handle => is_delete_server e = false)
              (calls (wait_killed env poll_budget f (fst t) 0 w))) as Hwd
      by (eapply Forall_impl; [|exact Hw]; now intros e [_ He]).
    assert (filter is_forget
              (calls (wait_killed env poll_budget f (fst t) 0 w)) = []) as Hwf
      by (apply filter_nothing; eapply Forall_impl; [|exact Hw];
          now intros e [He _]).
    rewrite bind_assoc.
    destruct (wait_killed env poll_budget f (fst t) 0 w)
      as [[u| |] w1 ev1] eqn:Hwait; cbn [calls] in Hwd, Hwf.
    + rewrite (bind_val _ _ _ _ _ _ Hwait). rewrite !bind_update.
      cbv zeta. cbn [result world calls].
      destruct (IH (delete_instance_state env (fst t) w1)) as (Hd & Hval).
      cbv zeta in Hd, Hval. split.
      * apply Forall_app. split; [exact Hwd|]. cbn [app].
        constructor; [reflexivity|exact Hd].
      * intro Hr. rewrite filter_app, Hwf. cbn [app filter is_forget map].
        now rewrite Hval.
    + unfold bind. rewrite Hwait. cbn. split; [exact Hwd|discriminate].
    + unfold bind. rewrite Hwait. cbn. split; [exact Hwd|discriminate].
Qed.

Lemma outside_in (ids : list string) (id : string) :
  In id ids -> existsb (String.eqb id) ids = true.
Proof.
  intro H. apply existsb_exists. exists id. split; [assumption|].
  apply String.eqb_refl.
Qed.

Lemma cleanup_steps_inside (targets : list (string * string)) :
  let ids := map fst targets in
  without (outside ids) (fun _ => True)
    (bind (delete_all env targets) (fun _ => confirm_killed env f targets)).
Proof.
  cbv zeta.
  assert (forall t, In t targets ->
            existsb (String.eqb (fst t)) (map fst targets) = true) as Hin
    by (intros t Ht; apply outside_in; now apply in_map).
  apply (without_bind _ (fun _ => True)).
  - unfold delete_all. apply for_each_without. intros t Ht.
    apply call_without. repeat constructor. unfold outside. cbn.
    now rewrite Hin.
  - intros _ _. unfold confirm_killed. apply for_each_without. intros t Ht.
    apply (without_bind _ (fun _ => True)).
    + apply wait_killed_without;
        [apply error_in_logs_without; reflexivity | reflexivity |].
      unfold outside. cbn. now rewrite Hin.
    + intros _ _. apply update_without. repeat constructor.
      unfold outside. cbn. now rewrite Hin.
Qed.

(** X9: the cleanup is about the servers that the state lists as ACTIVE and
    about no other: every delete request, every [get_server] and every
    removal from the state names one of them.  When the cleanup returns,
    it has first asked for the deletion of each of them, in the order of
    the state, and then, without any further delete request, removed each
    of them from the state once, in the same order. *)
Theorem cleanup_only_active (vms : list instance) (w w0 : World) :
  get_instances env w = (vms, w0) ->
  let ids := map fst (active_vms vms) in
  let r := cleanup env f w in
  (forall id, In id ids <-> exists k, In (k, Some (id, "ACTIVE")) vms)
  /\ Forall (fun e => forall id, server_of e = Some id -> In id ids)
       (calls r)
  /\ (result r = Val tt ->
      exists polls,
        calls r = map EvDeleteServer ids ++ polls
        /\ Forall (fun e => is_delete_server e = false) polls
        /\ filter is_forget polls = map EvForget ids).
Proof.
  intro Hvms. cbv zeta. split; [apply active_vms_ids|].
  assert (cleanup env f w
          = bind (delete_all env (active_vms vms))
              (fun _ => confirm_killed env f (active_vms vms)) w0) as ->.
  { unfold cleanup. unfold bind at 1, call_total. rewrite Hvms.
    cbn [result world calls app]. now rewrite <- reply_eta. }
  split.
  - destruct (cleanup_steps_inside (active_vms vms) w0) as [H _].
    eapply Forall_impl; [|exact H]. cbn beta. intros e He id Hid.
    unfold outside in He. rewrite Hid in He.
    apply negb_false_iff, existsb_exists in He as (x & Hx & Heq).
    apply String.eqb_eq in Heq. now subst.
  - destruct (delete_all_calls (active_vms vms) w0) as (_ & Hdel).
    cbv zeta in Hdel. unfold bind.
    destruct (delete_all env (active_vms vms) w0) as [[u| |] w1 ev1];
      cbn [result world calls] in *; try discriminate.
    destruct (confirm_killed_forgets (active_vms vms) w1) as (Hnd & Hfor).
    cbv zeta in Hnd, Hfor. intro Hr.
    exists (calls (confirm_killed env f (active_vms vms) w1)).
    destruct u. rewrite Hdel by reflexivity. now repeat split; auto.
Qed.

Lemma wait_killed_looks_once (id : string) (w : World) :
  In (EvGetServer id) (calls (wait_killed env poll_budget f id 0 w)).
Proof.
  destruct (wait_killed_from World Handle env f id poll_budget 0 w)
    as (Hg & _); [lia | cbn; lia |]. cbv zeta in Hg.
  unfold count_calls in Hg.
  destruct (filter (is_get_server id)
              (calls (wait_killed env poll_budget f id 0 w)))
    as [|e l] eqn:E; [cbn in Hg; lia|].
  assert (In e (filter (is_get_server id)
                  (calls (wait_killed env poll_budget f id 0 w)))) as Hin
    by (rewrite E; now left).
  apply filter_In in Hin as [Hin He].
  destruct e; try discriminate He. cbn in He.
  apply String.eqb_eq in He. now subst.
Qed.

Lemma confirm_killed_polls (targets : list (string * string)) :
  forall w : World,
    result (confirm_killed env f targets w) = Val tt ->
    forall id, In id (map fst targets) ->
               In (EvGetServer id) (calls (confirm_killed env f targets w)).
Proof.
  unfold confirm_killed.
  induction targets as [|t rest IH]; intros w Hr id Hid; [destruct Hid|].
  cbn [for_each] in Hr |- *. rewrite bind_assoc in Hr |- *.
  pose proof (wait_killed_looks_once (fst t) w) as Honce.
  destruct (wait_killed env poll_budget f (fst t) 0 w)
    as [[u| |] w1 ev1] eqn:Hwait; cbn [calls] in Honce.
  - rewrite (bind_val _ _ _ _ _ _ Hwait) in Hr |- *.
    rewrite !bind_update in Hr |- *. cbv zeta in Hr |- *.
    cbn [result world calls] in Hr |- *.
    apply in_or_app. destruct Hid as [<-|Hid]; [now left|right].
    right. now apply IH.
  - unfold bind in Hr. rewrite Hwait in Hr. discriminate Hr.
  - unfold bind in Hr. rewrite Hwait in Hr. discriminate Hr.
Qed.

(** A cleanup that returns has done all of its work: the flag is the
    loop's, every ACTIVE server was sent a delete request, was looked for
    and was removed from the state. *)
Lemma finish_completes (s : Loop Handle) (vms : list instance)
  (w w0 : World) (flag : bool) :
  get_instances env w = (vms, w0) ->
  result (finish env f s w) = Val flag ->
  let ids := map fst (active_vms vms) in
  flag = test_succeeded s
  /\ exists polls,
       calls (finish env f s w) = map EvDeleteServer ids ++ polls
       /\ Forall (fun e => is_delete_server e = false) polls
       /\ filter is_forget polls = map EvForget ids
       /\ forall id, In id ids -> In (EvGetServer id) polls.
Proof.
  intros Hvms Hr. cbv zeta.
  assert (cleanup env f w
          = bind (delete_all env (active_vms vms))
              (fun _ => confirm_killed env f (active_vms vms)) w0) as Hc.
  { unfold cleanup. unfold bind at 1, call_total. rewrite Hvms.
    cbn [result world calls app]. now rewrite <- reply_eta. }
  unfold finish in Hr |- *. unfold bind at 1 in Hr. unfold bind at 1.
  rewrite Hc in Hr |- *.
  destruct (delete_all_calls (active_vms vms) w0) as (_ & Hdel).
  cbv zeta in Hdel.
  destruct (delete_all env (active_vms vms) w0) as [[u| |] w1 ev1] eqn:Hd;
    cbn [result calls] in Hdel.
  - rewrite (bind_val _ _ _ _ _ _ Hd) in Hr |- *.
    cbn [result world calls] in Hr |- *.
    destruct (confirm_killed_forgets (active_vms vms) w1) as (Hnd & Hfor).
    cbv zeta in Hnd, Hfor.
    pose proof (confirm_killed_polls (active_vms vms) w1) as Hpolls.
    destruct (confirm_killed env f (active_vms vms) w1)
      as [[u'| |] w2 ev2]; cbn [result world calls ret] in *;
      try discriminate Hr.
    injection Hr as <-. split; [reflexivity|].
    exists ev2. destruct u'. rewrite Hdel by (now destruct u).
    rewrite app_nil_r. repeat split; auto.
  - rewrite (bind_exc _ _ _ _ _ _ Hd) in Hr. discriminate Hr.
  - unfold bind in Hr. rewrite Hd in Hr. discriminate Hr.
Qed.

(** A cleanup in which every delete request returns and every server
    goes away in time. *)
Lemma cleanup_returns (vms : list instance) (w w0 w1 w2 : World)
  (polls : list (Event Handle)) :
  get_instances env w = (vms, w0) ->
  deletes_return env (map fst (active_vms vms)) w0 = Some w1 ->
  vanish env (map fst (active_vms vms)) w1 w2 polls ->
  cleanup env f w
  = mkReply (Val tt) w2
      (map EvDeleteServer (map fst (active_vms vms)) ++ polls).
Proof.
  intros Hvms Hdel Hgone. unfold cleanup.
  unfold bind at 1, call_total. rewrite Hvms. cbn [result world calls app].
  rewrite (bind_val _ _ _ _ _ _
             (delete_all_returns World Handle env _ _ _ Hdel)).
  rewrite (confirm_killed_vanish World Handle env f _ _ _ _ Hgone).
  reflexivity.
Qed.

Lemma cleanup_completes (vms : list instance) (w w0 : World) (u : unit) :
  get_instances env w = (vms, w0) ->
  result (cleanup env f w) = Val u ->
  let ids := map fst (active_vms vms) in
  exists polls,
    calls (cleanup env f w) = map EvDeleteServer ids ++ polls
    /\ Forall (fun e => is_delete_server e = false) polls
    /\ filter is_forget polls = map EvForget ids
    /\ forall id, In id ids -> In (EvGetServer id) polls.
Proof.
  intros Hvms Hr. cbv zeta.
  assert (result (finish env f (mkLoop [] 0%Q true 0 true) w) = Val true)
    as Hf by (unfold finish, bind; destruct (cleanup env f w)
                as [[u'| |] w' ev]; try discriminate Hr; reflexivity).
  destruct (finish_completes _ _ _ _ _ Hvms Hf) as (_ & polls & Hc & H).
  exists polls. split; [|exact H].
  rewrite <- Hc. unfold finish, bind.
  destruct (cleanup env f w) as [[u'| |] w' ev]; cbn;
    now rewrite ?app_nil_r.
Qed.

(** C7: a pass that finds the engine in cooldown with no verification
    pending checks the logs once and leaves the loop, whatever the check
    answers.  The cleanup follows: the delete requests go to the servers
    that the state lists as ACTIVE; when they return and every server goes
    away in time, the run returns its flag after the delete requests, the
    looks for each server and its removal from the state, and the flag is
    [False] if the check found errors.  No run returns a flag without
    having sent the delete requests, looked for every such server and
    removed each from the state. *)
Theorem cooldown_exit (fuel : nat) (s s1 : Loop Handle) (w w1 : World)
  (ev1 : list (Event Handle)) :
  inject env f s w = mkReply (Val s1) w1 ev1 ->
  cooldown s1 = true ->
  retry_list s1 = [] ->
  let d := error_in_logs env f w1 in
  let r := run_loop env (S fuel) f s w in
  count_calls is_logcheck (ev1 ++ calls d) = 1%nat
  /\ (exists b : bool, result d = Val b)
  /\ forall (b : bool) (vms : list instance) (w0 : World),
       result d = Val b ->
       get_instances env (world d) = (vms, w0) ->
       let ids := map fst (active_vms vms) in
       (forall id, In id ids <-> exists k, In (k, Some (id, "ACTIVE")) vms)
       /\ (forall (w2 w3 : World) (polls : list (Event Handle)),
             deletes_return env ids w0 = Some w2 ->
             vanish env ids w2 w3 polls ->
             r = mkReply (Val (if b then false else test_succeeded s)) w3
                   (ev1 ++ calls d ++ map EvDeleteServer ids ++ polls))
       /\ (forall flag : bool,
             result r = Val flag ->
             flag = (if b then false else test_succeeded s)
             /\ exists polls,
                  calls r = ev1 ++ calls d ++ map EvDeleteServer ids ++ polls
                  /\ Forall (fun e => is_delete_server e = false) polls
                  /\ filter is_forget polls = map EvForget ids
                  /\ forall id, In id ids -> In (EvGetServer id) polls).
Proof.
  intros Hinj Hcool Hempty. cbv zeta.
  destruct (cooldown_exit_reply World Handle env f fuel s s1 w w1 ev1
              Hinj Hcool Hempty) as (Hone & b0 & Hb0 & Hrun).
  cbv zeta in Hone, Hrun.
  split; [exact Hone|]. split; [now exists b0|].
  intros b vms w0 Hb Hvms.
  assert (b0 = b) as -> by congruence.
  split; [intro id; apply active_vms_ids|]. split.
  - intros w2 w3 polls Hdel Hgone. rewrite Hrun.
    now rewrite (cleanup_returns vms _ w0 w2 w3 polls Hvms Hdel Hgone).
  - intros flag Hflag. rewrite Hrun in Hflag |- *.
    cbn [result calls] in Hflag |- *.
    destruct (result (cleanup env f (world (error_in_logs env f w1))))
      as [u| |] eqn:Hc; try discriminate Hflag.
    injection Hflag as <-. split; [reflexivity|].
    destruct (cleanup_completes vms _ w0 u Hvms Hc)
      as (polls & Hcalls & Hrest).
    exists polls. split; [now rewrite Hcalls|exact Hrest].
Qed.

(** X10: when [delete_server] raises for a server that the state lists as
    ACTIVE, after the requests for the ACTIVE servers listed before it
    returned, the run ends with that exception: the calls of the cleanup
    are those delete requests and the failing one, so no server is looked
    for, none is removed from the state, and the servers listed behind the
    failing one are not deleted. *)
Theorem delete_failure_aborts (s : Loop Handle)
  (before behind : list instance) (key id : string) (w w0 w1 w2 : World)
  (e : exn) :
  let ids := map fst (active_vms before) in
  get_instances env w
  = (before ++ (key, Some (id, "ACTIVE")) :: behind, w0) ->
  deletes_return env ids w0 = Some w1 ->
  delete_server env id w1 = (Raised e, w2) ->
  (forall i, In i ids <-> exists k, In (k, Some (i, "ACTIVE")) before)
  /\ finish env f s w
     = mkReply (Exc e) w2 (map EvDeleteServer ids ++ [EvDeleteServer id]).
Proof.
  intros ids Hvms Hpre Hfail.
  split; [intro i; apply active_vms_ids|].
  unfold finish, cleanup. apply bind_exc.
  unfold bind at 1, call_total. rewrite Hvms. cbn [result world calls app].
  rewrite active_vms_at.
  assert (delete_all env
            (active_vms before ++ (id, "ACTIVE") :: active_vms behind) w0
          = mkReply (Exc e) w2
              (map EvDeleteServer ids ++ [EvDeleteServer id])) as Hdel.
  { unfold delete_all. rewrite for_each_app.
    pose proof (delete_all_returns World Handle env (active_vms before)
                  w0 w1 Hpre) as Hok.
    unfold delete_all in Hok. rewrite (bind_val _ _ _ _ _ _ Hok).
    cbn [for_each fst].
    assert (call [EvDeleteServer id] (delete_server env id) w1
            = mkReply (Exc e) w2 [@EvDeleteServer Handle id]) as Hc
      by (unfold call; now rewrite Hfail).
    rewrite (bind_exc _ _ _ _ _ _ Hc). reflexivity. }
  rewrite (bind_exc _ _ _ _ _ _ Hdel). reflexivity.
Qed.

End CleanupOrder.

(** The scripted cluster with a servers client that refuses to delete
    the server vm4. *)
Definition refusing_delete : Env Mock.World nat :=
  let e := Mock.env Mock.quiet in
  mkEnv Mock.World nat (time_time e) (time_sleep e) (random_seed e)
    (random_below e) (ssh e) (ssh_nocheck e) (execute_on_all e) (invoke e)
    (retry e) (State_new e) (get_instances e) (delete_instance_state e)
    (fun id w =>
       (if String.eqb id "vm4" then Raised (PyException "Forbidden")
        else Returned tt, w))
    (get_server e).

Definition two_vms : list instance :=
  [("vm1", Some ("vm1", "ACTIVE")); ("vm2", Some ("vm2", "BUILD"));
   ("vm3", None); ("vm4", Some ("vm4", "ACTIVE"))].

Lemma cleanup_only_active_witness :
  let env := Mock.env Mock.quiet in
  let f := Mock.frame [] [action_a] 10 in
  let w := Mock.start 0 two_vms in
  let ids := ["vm1"; "vm4"] in
  let r := cleanup env f w in
  (forall id, In id ids <-> exists k, In (k, Some (id, "ACTIVE")) two_vms)
  /\ Forall (fun e => forall id, server_of e = Some id -> In id ids)
       (calls r)
  /\ (result r = Val tt ->
      exists polls,
        calls r = map EvDeleteServer ids ++ polls
        /\ Forall (fun e => is_delete_server e = false) polls
        /\ filter is_forget polls = map EvForget ids).
Proof.
  cbv zeta.
  apply (cleanup_only_active Mock.World nat (Mock.env Mock.quiet)
           (Mock.frame [] [action_a] 10) two_vms (Mock.start 0 two_vms)
           (Mock.start 0 two_vms)).
  reflexivity.
Defined.

Definition three_vms : list instance :=
  two_vms ++ [("vm5", Some ("vm5", "ACTIVE"))].

Lemma delete_failure_aborts_witness :
  finish refusing_delete (Mock.frame [] [action_a] 10)
    (mkLoop [] 0%Q true 0 true) (Mock.start 0 three_vms)
  = mkReply (Exc (PyException "Forbidden")) (Mock.start 0 three_vms)
      [EvDeleteServer "vm1"; EvDeleteServer "vm4"].
Proof.
  apply (delete_failure_aborts Mock.World nat refusing_delete
           (Mock.frame [] [action_a] 10) (mkLoop [] 0%Q true 0 true)
           [("vm1", Some ("vm1", "ACTIVE")); ("vm2", Some ("vm2", "BUILD"));
            ("vm3", None)] [("vm5", Some ("vm5", "ACTIVE"))] "vm4" "vm4"
           (Mock.start 0 three_vms) (Mock.start 0 three_vms)
           (Mock.start 0 three_vms) (Mock.start 0 three_vms)
           (PyException "Forbidden")); reflexivity.
Defined.

(** ** The passes of the loop *)

Section PassFacts.

Variables World Handle : Type.
Variable env : Env World Handle.
Variable f : Frame.

Lemma bind_inv {A B : Type} (m : Step World Handle A)
  (k : A -> Step World Handle B) (w : World) (b : B) :
  result (bind m k w) = Val b ->
  exists a, result (m w) = Val a /\ result (k a (world (m w))) = Val b.
Proof.
  unfold bind. destruct (m w) as [[a| |] w1 ev1]; cbn; try discriminate.
  intro H. now exists a.
Qed.

Lemma random_choice_member {A : Type} (seq : list A) (w : World) (a : A) :
  result (random_choice env seq w) = Val a -> In a seq.
Proof.
  unfold random_choice. destruct seq as [|a0 rest]; [discriminate|].
  intro H. apply bind_inv in H as (k & _ & H). unfold lift in H.
  cbn [result] in H. unfold Py.index in H.
  destruct (nth_error (a0 :: rest) (k mod List.length (a0 :: rest)))
    as [x|] eqn:E; [|discriminate].
  injection H as <-. now apply nth_error_In in E.
Qed.

Lemma inject_injected (s s1 : Loop Handle) (w : World) :
  result (inject env f s w) = Val s1 -> injected s s1.
Proof.
  unfold inject. destruct (cooldown s) eqn:Hc; cbn [negb].
  - cbn. intros [= <-]. now left.
  - intro H. apply bind_inv in H as (t & _ & H).
    destruct (Qlt_bool t (test_end_time f)).
    + apply bind_inv in H as (case & _ & H).
      apply bind_inv in H as (r & _ & H).
      destruct r as [h|]; cbn in H; injection H as <-.
      * right. right. split; [exact Hc|]. exists h. now rewrite Hc.
      * now left.
    + cbn in H. injection H as <-. right. left. now split.
Qed.

Lemma retry_verifications_retried (s1 s2 : Loop Handle) (w : World) :
  result (retry_verifications env s1 w) = Val s2 -> retried s1 s2.
Proof.
  unfold retry_verifications. intro H. apply bind_inv in H as (t & _ & H).
  destruct (Qlt_bool 5 (t - last_retry s1)).
  - apply bind_inv in H as (kept & Hk & H).
    apply bind_inv in H as (t' & _ & H). cbn in H. injection H as <-.
    destruct (drain_retries_subseq _ _ env (retry_list s1) kept _ Hk)
      as (_ & Hs). now repeat split.
  - cbn in H. injection H as <-. repeat split. apply subseq_refl.
Qed.

Variable D : bool -> Prop.
Hypothesis detector :
  forall (w : World) (b : bool),
    result (error_in_logs env f w) = Val b -> D b.

Lemma check_logs_checked (s2 : Loop Handle) (n : Next Handle) (w : World) :
  result (check_logs env f s2 w) = Val n -> checked D s2 n.
Proof.
  unfold check_logs, checked.
  destruct (Z.ltb_spec 100 (logcheck_count s2)) as [Hgt|Hle].
  - intro H. apply bind_inv in H as (b & Hb & H). apply detector in Hb.
    destruct b; cbn in H; injection H as <-.
    + right. right. now repeat split.
    + right. left. now repeat split.
  - cbn. intros [= <-]. left. now split.
Qed.

Lemma iteration_pass (s : Loop Handle) (n : Next Handle) (w : World) :
  result (iteration env f s w) = Val n -> pass D s n.
Proof.
  unfold iteration. intro H. apply bind_inv in H as (m & Hm & H).
  unfold upto_sleep in Hm. apply bind_inv in Hm as (s1 & Hs1 & Hm).
  exists s1. split; [now apply (inject_injected s s1 w)|].
  destruct (cooldown s1) eqn:Hc; cbn [andb] in Hm.
  - destruct (retry_list s1) as [|h rest] eqn:Hl;
      cbn [List.length Nat.eqb] in Hm.
    + left. split; [reflexivity|]. split; [reflexivity|].
      apply bind_inv in Hm as (b & Hb & Hm). apply detector in Hb.
      cbn in Hm. injection Hm as <-. cbn in H. injection H as <-.
      destruct b; [right|left]; (split; [assumption|]).
      * unfold failed. rewrite Hl, Hc. reflexivity.
      * reflexivity.
    + right. split; [intros [_ Hx]; discriminate|].
      apply bind_inv in Hm as (s2 & Hs2 & Hm).
      apply bind_inv in Hm as (u & _ & Hm). cbn in Hm. injection Hm as <-.
      exists s2. split.
      * apply (retry_verifications_retried _ _ _ Hs2).
      * now apply (check_logs_checked s2 n _ H).
  - right. split; [intros [Hx _]; discriminate|].
    apply bind_inv in Hm as (s2 & Hs2 & Hm).
    apply bind_inv in Hm as (u & _ & Hm). cbn in Hm. injection Hm as <-.
    exists s2. split.
    + apply (retry_verifications_retried _ _ _ Hs2).
    + now apply (check_logs_checked s2 n _ H).
Qed.

(** What every pass keeps, the loop keeps. *)
Lemma while_true_keeps (I : Loop Handle -> Prop) :
  (forall s n, I s -> pass D s n -> I (state_of n)) ->
  forall (fuel : nat) (s s' : Loop Handle) (w : World),
    I s -> result (while_true env fuel f s w) = Val s' -> I s'.
Proof.
  intros Hstep. induction fuel as [|fuel IH]; intros s s' w Hs H;
    [discriminate|].
  cbn [while_true] in H. apply bind_inv in H as (n & Hn & H).
  pose proof (Hstep s n Hs (iteration_pass s n w Hn)) as Hn'.
  destruct n as [s1|s1]; cbn [state_of] in Hn'.
  - exact (IH s1 s' _ Hn' H).
  - cbn in H. now injection H as <-.
Qed.

End PassFacts.

(** ** What the loop keeps *)

Section Invariants.

Variables World Handle : Type.
Variable env : Env World Handle.
Variable f : Frame.

Lemma any_answer (w : World) (b : bool) :
  result (error_in_logs env f w) = Val b -> True.
Proof. trivial. Qed.

Lemma pass_counter (D : bool -> Prop) (s : Loop Handle) (n : Next Handle) :
  0 <= logcheck_count s <= 101 -> pass D s n ->
  0 <= logcheck_count (state_of n) <= 101.
Proof.
  intros Hs (s1 & Hinj & Hrest).
  assert (logcheck_count s1 = logcheck_count s) as H1.
  { destruct Hinj as [->|[(_ & ->)|(_ & h & ->)]]; reflexivity. }
  destruct Hrest as [(_ & _ & [(_ & ->)|(_ & ->)])
                    |(_ & s2 & (_ & _ & H2 & _) & Hck)];
    cbn [state_of failed logcheck_count]; try lia.
  destruct Hck as [(Hle & ->)|[(_ & _ & ->)|(_ & _ & ->)]];
    cbn [state_of failed logcheck_count]; lia.
Qed.

(** X11: [logcheck_count] stays between 0 and 101: a pass that starts with
    the counter in that range ends with it there, and so does the loop,
    however many passes it makes. *)
Theorem logcheck_count_bounded (fuel : nat) (s : Loop Handle) (w : World) :
  0 <= logcheck_count s <= 101 ->
  (forall n, result (iteration env f s w) = Val n ->
             0 <= logcheck_count (state_of n) <= 101)
  /\ (forall s', result (while_true env fuel f s w) = Val s' ->
                 0 <= logcheck_count s' <= 101).
Proof.
  intro Hs. split.
  - intros n Hn. apply (pass_counter (fun _ => True) s n Hs).
    exact (iteration_pass World Handle env f (fun _ => True) any_answer
             s n w Hn).
  - intros s' H.
    apply (while_true_keeps World Handle env f (fun _ => True) any_answer
             (fun x => 0 <= logcheck_count x <= 101)
             (fun x n => pass_counter (fun _ => True) x n) fuel s s' w Hs H).
Qed.

Lemma pass_flag (D : bool -> Prop) (s : Loop Handle) (n : Next Handle) :
  pass D s n ->
  test_succeeded (state_of n) = test_succeeded s
  \/ (D true /\ test_succeeded (state_of n) = false).
Proof.
  intros (s1 & Hinj & Hrest).
  assert (test_succeeded s1 = test_succeeded s) as H1.
  { destruct Hinj as [->|[(_ & ->)|(_ & h & ->)]]; reflexivity. }
  destruct Hrest as [(_ & _ & [(_ & ->)|(Hd & ->)])
                    |(_ & s2 & (_ & _ & _ & H2) & Hck)];
    cbn [state_of failed test_succeeded]; auto.
  destruct Hck as [(_ & ->)|[(_ & _ & ->)|(_ & Hd & ->)]];
    cbn [state_of failed test_succeeded]; auto; left; congruence.
Qed.

Lemma finish_flag (s : Loop Handle) (w : World) (b : bool) :
  result (finish env f s w) = Val b -> b = test_succeeded s.
Proof.
  unfold finish. intro H. apply bind_inv in H as (u & _ & H).
  cbn in H. now injection H as <-.
Qed.

(** X12: the loop only ever lowers the flag.  A run that goes on from a
    state whose [test_succeeded] is [False] cannot return [True]: no pass
    and no cleanup sets the flag back. *)
Theorem failure_sticks (fuel : nat) (s : Loop Handle) (w : World) (b : bool) :
  test_succeeded s = false ->
  result (run_loop env fuel f s w) = Val b ->
  b = false.
Proof.
  intros Hs H. unfold run_loop in H. apply bind_inv in H as (s' & Hs' & H).
  apply finish_flag in H. subst b.
  assert (forall x n, test_succeeded x = false -> pass (fun _ => True) x n ->
                      test_succeeded (state_of n) = false) as Hstep
    by (intros x n Hx Hp; destruct (pass_flag _ x n Hp) as [->|[_ ->]]; auto).
  exact (while_true_keeps World Handle env f (fun _ => True) any_answer
           (fun x => test_succeeded x = false) Hstep fuel s s' w Hs Hs').
Qed.

Lemma pass_pool_cooldown (D : bool -> Prop) (s0 s : Loop Handle)
  (n : Next Handle) :
  cooldown s = true /\ subseq (retry_list s) (retry_list s0) ->
  pass D s n ->
  cooldown (state_of n) = true
  /\ subseq (retry_list (state_of n)) (retry_list s0).
Proof.
  intros [Hc Hsub] (s1 & Hinj & Hrest).
  assert (s1 = s) as ->.
  { destruct Hinj as [->|[(Hx & _)|(Hx & _)]]; [reflexivity|congruence..]. }
  destruct Hrest as [(_ & _ & [(_ & ->)|(_ & ->)])
                    |(_ & s2 & (H2 & H2c & _) & Hck)];
    cbn [state_of failed cooldown retry_list]; auto.
  assert (subseq (retry_list s2) (retry_list s0)) as Hs2
    by (eapply subseq_trans; eassumption).
  destruct Hck as [(_ & ->)|[(_ & _ & ->)|(_ & _ & ->)]];
    cbn [state_of failed cooldown retry_list]; split; congruence || auto.
Qed.

(** X13: in cooldown the pool only shrinks.  From a state in cooldown,
    whatever state the loop ends in is in cooldown and its pool is the
    pool it started with, in the same order, with some handles left out. *)
Theorem cooldown_pool_shrinks (fuel : nat) (s s' : Loop Handle) (w : World) :
  cooldown s = true ->
  result (while_true env fuel f s w) = Val s' ->
  cooldown s' = true
  /\ subseq (retry_list s') (retry_list s)
  /\ (List.length (retry_list s') <= List.length (retry_list s))%nat.
Proof.
  intros Hc H.
  assert (cooldown s' = true /\ subseq (retry_list s') (retry_list s))
    as [H1 H2].
  { apply (while_true_keeps World Handle env f (fun _ => True) any_answer
             (fun x => cooldown x = true
                       /\ subseq (retry_list x) (retry_list s))
             (fun x n => pass_pool_cooldown (fun _ => True) s x n)
             fuel s s' w); [|exact H].
    split; [exact Hc|apply subseq_refl]. }
  split; [exact H1|]. split; [exact H2|]. now apply subseq_length.
Qed.

Lemma subseq_app_one {A : Type} (l1 l2 : list A) (x : A) :
  subseq l1 l2 -> subseq l1 (l2 ++ [x]).
Proof.
  induction 1; cbn; try now constructor.
  constructor. constructor.
Qed.


End Invariants.

(** ** The calls of a whole run *)

Section RunCalls.

Variables World Handle : Type.
Variable env : Env World Handle.
Variable f : Frame.
Variable p : Event Handle -> bool.

Hypothesis p_choice : p EvChoice = false.
Hypothesis p_invoke : forall c, In c (cases f) -> p (EvInvoke c) = false.
Hypothesis p_retry : forall h, p (EvRetry h) = false.
Hypothesis p_sleep : forall t, p (EvSleep t) = false.
Hypothesis p_delete : forall id, p (EvDeleteServer id) = false.
Hypothesis p_get : forall id, p (EvGetServer id) = false.
Hypothesis p_forget : forall id, p (EvForget id) = false.
Hypothesis p_detector : without p (fun _ => True) (error_in_logs env f).

Lemma random_choice_without {A : Type} (seq : list A) :
  without p (fun a => In a seq) (random_choice env seq).
Proof.
  intro w. split.
  - unfold random_choice. destruct seq as [|a0 rest]; cbn [calls].
    + now repeat constructor.
    + unfold bind, call_total, lift.
      destruct (random_below env (List.length (a0 :: rest)) w) as [k w1].
      cbn [result world calls app]. now repeat constructor.
  - intros a Ha. now apply (random_choice_member World Handle env seq w).
Qed.

Lemma inject_without (s : Loop Handle) :
  without p (fun _ => True) (inject env f s).
Proof.
  unfold inject. destruct (negb (cooldown s)); [|now apply without_ret].
  apply (without_bind p (fun _ => True));
    [apply call_total_without; constructor|].
  intros t _. destruct (Qlt_bool t (test_end_time f));
    [|now apply without_ret].
  apply (without_bind p (fun c => In c (cases f)));
    [apply random_choice_without|].
  intros case Hcase. apply (without_bind p (fun _ => True)).
  - apply call_without. repeat constructor. now apply p_invoke.
  - intros [h|] _; now apply without_ret.
Qed.

Lemma iteration_without (s : Loop Handle) :
  without p (fun _ => True) (iteration env f s).
Proof.
  unfold iteration, upto_sleep.
  apply (without_bind p (fun _ => True)).
  - apply (without_bind p (fun _ => True)); [apply inject_without|].
    intros s1 _.
    destruct (cooldown s1 && Nat.eqb (List.length (retry_list s1)) 0)%bool.
    + apply (without_bind p (fun _ => True)); [exact p_detector|].
      intros b _. now apply without_ret.
    + apply (without_bind p (fun _ => True));
        [now apply retry_verifications_without|].
      intros s2 _. apply (without_bind p (fun _ => True)).
      * apply update_without. repeat constructor. apply p_sleep.
      * intros _ _. now apply without_ret.
  - intros [s2|s'] _; [|now apply without_ret].
    unfold check_logs. destruct (100 <? logcheck_count s2);
      [|now apply without_ret].
    apply (without_bind p (fun _ => True)); [exact p_detector|].
    intros [] _; now apply without_ret.
Qed.

Lemma while_true_without (fuel : nat) :
  forall s : Loop Handle, without p (fun _ => True) (while_true env fuel f s).
Proof.
  induction fuel as [|fuel IH]; intro s; cbn [while_true].
  - apply without_out_of_fuel.
  - apply (without_bind p (fun _ => True)); [apply iteration_without|].
    intros [s'|s'] _; [apply IH|now apply without_ret].
Qed.

Lemma finish_without (s : Loop Handle) :
  without p (fun _ => True) (finish env f s).
Proof.
  unfold finish, cleanup.
  apply (without_bind p (fun _ => True)); [|intros; now apply without_ret].
  apply (without_bind p (fun _ => True));
    [apply call_total_without; constructor|].
  intros vms _. apply (without_bind p (fun _ => True)).
  - unfold delete_all. apply for_each_without. intros t _.
    apply call_without. repeat constructor. apply p_delete.
  - intros _ _. unfold confirm_killed. apply for_each_without. intros t _.
    apply (without_bind p (fun _ => True)).
    + now apply wait_killed_without.
    + intros _ _. apply update_without. repeat constructor. apply p_forget.
Qed.

Lemma run_loop_without (fuel : nat) (s : Loop Handle) :
  without p (fun _ => True) (run_loop env fuel f s).
Proof.
  unfold run_loop.
  apply (without_bind p (fun _ => True)); [apply while_true_without|].
  intros s' _. apply finish_without.
Qed.

End RunCalls.

Section Runs.

Variables World Handle : Type.
Variable env : Env World Handle.

Lemma get_compute_nodes_without (p : Event Handle -> bool)
  (keypath user : option string) (controller : string) :
  (forall node, p (EvSsh node) = false) ->
  without p (fun _ => True) (_get_compute_nodes env keypath user controller).
Proof.
  intro Hp. unfold _get_compute_nodes.
  destruct keypath; [destruct user|]; try now apply without_ret.
  apply (without_bind p (fun _ => True)).
  - apply call_without. repeat constructor. apply Hp.
  - intros out _. eapply without_weaken; [apply lift_without|trivial].
Qed.

Lemma stray_invoke_in (pool : list BasherChoice) (c : BasherChoice) :
  In c pool -> stray_invoke pool (@EvInvoke Handle c) = false.
Proof.
  intro H. cbn. now destruct (in_dec BasherChoice_eq_dec c pool).
Qed.

(** X15: in a run of [bash_openstack] every action that is invoked is a
    choice of the workload whose weight is positive; a choice of weight 0
    is never invoked. *)
Theorem invoked_actions_in_workload (fuel : nat) (manager : Manager)
  (choice_spec : list BasherChoice) (kwargs : Kwargs) (w : World) :
  Forall
    (fun e => forall c, e = EvInvoke c ->
                        In c choice_spec /\ 0 < probability c)
    (calls (bash_openstack env fuel manager choice_spec kwargs w)).
Proof.
  assert (without (stray_invoke (CreateCases.expand choice_spec))
            (fun _ => True)
            (bash_openstack env fuel manager choice_spec kwargs)) as H.
  { unfold bash_openstack. cbv zeta.
    apply (without_bind _ (fun _ => True));
      [now apply get_compute_nodes_without|].
    intros computes _. apply (without_bind _ (fun _ => True));
      [apply call_without; now repeat constructor|].
    intros _ _. apply (without_bind _ (fun _ => True));
      [apply update_without; constructor|].
    intros _ _.
    apply (without_bind _
             (fun pool => CreateCases._create_cases choice_spec = Val pool));
      [apply lift_without|].
    intros pool Hpool. apply create_cases_val in Hpool as [-> _].
    apply (without_bind _ (fun _ => True));
      [apply call_total_without; constructor|].
    intros t0 _. apply (without_bind _ (fun _ => True));
      [apply update_without; constructor|].
    intros _ _. apply (without_bind _ (fun _ => True));
      [apply call_total_without; constructor|].
    intros last _. apply run_loop_without; try reflexivity.
    - intros c Hc. now apply stray_invoke_in.
    - now apply error_in_logs_without. }
  destruct (H w) as [Hc _]. eapply Forall_impl; [|exact Hc].
  cbn beta. intros e He c ->. cbn in He.
  destruct (in_dec BasherChoice_eq_dec c (CreateCases.expand choice_spec))
    as [Hin|]; [|discriminate].
  now apply expand_In.
Qed.




End Runs.

(** ** How a run starts and how it is cut short *)

Section Starts.

Variables World Handle : Type.
Variable env : Env World Handle.

Lemma get_compute_nodes_reply (keypath user : option string)
  (controller : string) (w : World) :
  let r := _get_compute_nodes env keypath user controller w in
  ((exists nodes, result r = Val nodes) \/ (exists e, result r = Exc e))
  /\ (calls r = [] \/ calls r = [EvSsh controller]).
Proof.
  cbv zeta. unfold _get_compute_nodes.
  destruct keypath as [key|]; [destruct user as [usr|]|];
    try (cbn; split; [left; now exists []|now left]).
  unfold bind, call, lift.
  destruct (ssh env (Some key) (Some usr) controller
              "nova-manage service list | grep ^nova-compute" w)
    as [[out|e] w1]; cbn [of_answer result world calls app].
  - rewrite scan_lines_closed_form. split; [|now right].
    destruct (existsb short_line (Py.split_on Py.newline out));
      [right|left]; eexists; reflexivity.
  - split; [right; now exists e|now right].
Qed.

(** X17: a workload that [_create_cases] refuses never reaches the loop:
    the run ends with an exception.  By then node discovery has run and,
    when it returned, so has the removal of the logs on the nodes it found
    (line 129 comes before the workload is looked at); these are all the
    calls of the run: no action is invoked, no log is checked, no server is
    touched. *)
Theorem config_error_before_loop (fuel : nat) (manager : Manager)
  (choice_spec : list BasherChoice) (kwargs : Kwargs) (w : World) (e : exn) :
  CreateCases._create_cases choice_spec = Exc e ->
  let r := bash_openstack env fuel manager choice_spec kwargs w in
  let g := _get_compute_nodes env
             (host_private_key_path (stress_config manager))
             (host_admin_user (stress_config manager))
             (identity_host manager) w in
  let rm :=
    ("rm -f " ++ nova_logdir (stress_config manager) ++ "/*.log")%string in
  (exists e', result r = Exc e')
  /\ (calls g = [] \/ calls g = [EvSsh (identity_host manager)])
  /\ match result g with
     | Val nodes =>
         calls r = calls g ++ [EvExecuteOnAll nodes rm]
         /\ forall (u : unit) (w2 : World),
              execute_on_all env
                (host_private_key_path (stress_config manager))
                (host_admin_user (stress_config manager)) nodes rm (world g)
              = (Returned u, w2) ->
              result r = Exc e
     | Exc e1 => result r = Exc e1 /\ calls r = calls g
     | OutOfFuel => False
     end.
Proof.
  intro Hbad. cbv zeta. unfold bash_openstack. cbv zeta.
  destruct (get_compute_nodes_reply
              (host_private_key_path (stress_config manager))
              (host_admin_user (stress_config manager))
              (identity_host manager) w) as (Hres & Hcalls).
  cbv zeta in Hres, Hcalls.
  destruct (_get_compute_nodes env
              (host_private_key_path (stress_config manager))
              (host_admin_user (stress_config manager))
              (identity_host manager) w) as [r1 w1 ev1] eqn:Hg.
  cbn [result world calls] in Hres, Hcalls |- *.
  destruct Hres as [(nodes & ->)|(e1 & ->)].
  - rewrite (bind_val _ _ _ _ _ _ Hg). cbn [result calls].
    match goal with
    | |- context [call ?ev ?g] =>
        destruct (g w1) as [[u|e2] w2] eqn:He;
        [assert (call ev g w1 = mkReply (Val u) w2 ev) as Hcall
           by (unfold call; now rewrite He)
        |assert (call ev g w1 = mkReply (Exc e2) w2 ev) as Hcall
           by (unfold call; now rewrite He)]
    end.
    + rewrite (bind_val _ _ _ _ _ _ Hcall). rewrite bind_update. cbv zeta.
      rewrite Hbad. unfold bind at 1, lift. cbn [result world calls app].
      split; [now exists e|]. split; [exact Hcalls|].
      rewrite ?app_nil_r. now split.
    + rewrite (bind_exc _ _ _ _ _ _ Hcall). cbn [result calls].
      split; [now exists e2|]. split; [exact Hcalls|].
      split; [reflexivity|]. intros u w2' Hu. congruence.
  - rewrite (bind_exc _ _ _ _ _ _ Hg). cbn [result calls].
    split; [now exists e1|]. split; [exact Hcalls|now split].
Qed.

Variable f : Frame.

Lemma finish_calls (s : Loop Handle) (w : World) :
  calls (finish env f s w) = calls (cleanup env f w).
Proof.
  unfold finish, bind. destruct (cleanup env f w) as [[u| |] w1 ev1]; cbn;
    now rewrite ?app_nil_r.
Qed.

(** The reply of a run whose first pass finds the deadline behind it and
    no verification pending. *)
Lemma late_start_reply (fuel : nat) (s : Loop Handle) (w w1 : World) (t : Q) :
  cooldown s = false ->
  retry_list s = [] ->
  time_time env w = (t, w1) ->
  Qlt_bool t (test_end_time f) = false ->
  let d := error_in_logs env f w1 in
  let c := cleanup env f (world d) in
  count_calls is_action (calls d ++ calls c) = O
  /\ count_calls is_logcheck (calls d) = 1%nat
  /\ exists b : bool,
       result d = Val b
       /\ run_loop env (S fuel) f s w
          = mkReply (match result c with
                     | Val _ => Val (if b then false else test_succeeded s)
                     | Exc e => Exc e
                     | OutOfFuel => OutOfFuel
                     end) (world c) (calls d ++ calls c).
Proof.
  intros Hc Hl Ht Hlate. cbv zeta.
  destruct (error_in_logs_counts World Handle env f w1) as (Hone & _ & Hna & _).
  split; [|split; [exact Hone|]].
  - rewrite count_calls_app, Hna.
    rewrite <- (finish_calls s). apply count_calls_none.
    apply (finish_no_action World Handle env f s).
  - destruct (error_in_logs_returns World Handle env f w1)
      as (b & l & Hb & _).
    exists b. split; [exact Hb|].
    pose proof (inject_enters_cooldown World Handle env f s w w1 t Hc Ht Hlate)
      as Hinj.
    assert (iteration env f s w
            = mkReply
                (Val (Break (mkLoop [] (last_retry s) true (logcheck_count s)
                               (if b then false else test_succeeded s))))
                (world (error_in_logs env f w1))
                (calls (error_in_logs env f w1))) as Hbreak.
    { unfold iteration, upto_sleep. rewrite bind_assoc.
      rewrite (bind_val _ _ _ _ _ _ Hinj). cbn [retry_list cooldown andb].
      rewrite Hl. cbn [List.length Nat.eqb app]. rewrite bind_assoc.
      rewrite (bind_val _ _ w1 (world (error_in_logs env f w1)) b
                 (calls (error_in_logs env f w1)))
        by (rewrite <- Hb; apply reply_eta).
      cbn. rewrite app_nil_r. now destruct b. }
    rewrite (run_loop_break World Handle env f fuel _ _ _ _ _ Hbreak).
    reflexivity.
Qed.

(** X18: a run whose first pass finds the deadline behind it and no
    verification pending invokes no action and makes a single pass, which
    checks the logs once.  The cleanup follows: the delete requests go to
    the servers that the state lists as ACTIVE; when they return and every
    server goes away in time, the run returns its flag after the delete
    requests, the looks for each server and its removal from the state.  No
    such run returns a flag without having done all of these. *)
Theorem late_start (fuel : nat) (s : Loop Handle) (w w1 : World) (t : Q) :
  cooldown s = false ->
  retry_list s = [] ->
  time_time env w = (t, w1) ->
  Qlt_bool t (test_end_time f) = false ->
  let d := error_in_logs env f w1 in
  let r := run_loop env (S fuel) f s w in
  count_calls is_action (calls r) = O
  /\ count_calls is_logcheck (calls d) = 1%nat
  /\ (exists b : bool, result d = Val b)
  /\ forall (b : bool) (vms : list instance) (w0 : World),
       result d = Val b ->
       get_instances env (world d) = (vms, w0) ->
       let ids := map fst (active_vms vms) in
       (forall id, In id ids <-> exists k, In (k, Some (id, "ACTIVE")) vms)
       /\ (forall (w2 w3 : World) (polls : list (Event Handle)),
             deletes_return env ids w0 = Some w2 ->
             vanish env ids w2 w3 polls ->
             r = mkReply (Val (if b then false else test_succeeded s)) w3
                   (calls d ++ map EvDeleteServer ids ++ polls))
       /\ (forall flag : bool,
             result r = Val flag ->
             flag = (if b then false else test_succeeded s)
             /\ exists polls,
                  calls r = calls d ++ map EvDeleteServer ids ++ polls
                  /\ Forall (fun e => is_delete_server e = false) polls
                  /\ filter is_forget polls = map EvForget ids
                  /\ forall id, In id ids -> In (EvGetServer id) polls).
Proof.
  intros Hc Hl Ht Hlate. cbv zeta.
  destruct (late_start_reply fuel s w w1 t Hc Hl Ht Hlate)
    as (Hna & Hone & b0 & Hb0 & Hrun).
  cbv zeta in Hna, Hrun.
  split; [now rewrite Hrun|]. split; [exact Hone|]. split; [now exists b0|].
  intros b vms w0 Hb Hvms.
  assert (b0 = b) as -> by congruence.
  split; [intro id; apply active_vms_ids|]. split.
  - intros w2 w3 polls Hdel Hgone. rewrite Hrun.
    now rewrite (cleanup_returns World Handle env f vms _ w0 w2 w3 polls
                   Hvms Hdel Hgone).
  - intros flag Hflag. rewrite Hrun in Hflag |- *.
    cbn [result calls] in Hflag |- *.
    destruct (result (cleanup env f (world (error_in_logs env f w1))))
      as [u| |] eqn:Hcl; try discriminate Hflag.
    injection Hflag as <-. split; [reflexivity|].
    destruct (cleanup_completes World Handle env f vms _ w0 u Hvms Hcl)
      as (polls & Hcalls & Hrest).
    exists polls. split; [now rewrite Hcalls|exact Hrest].
Qed.

(** X19: an exception raised by an action ends the run at once: the
    result of the run is that exception, the only calls of the pass are the
    draw and the invocation, and neither the pending verifications nor the
    servers are looked after. *)
Theorem invoke_exception_propagates (fuel : nat) (s : Loop Handle)
  (w w1 w2 w3 : World) (t : Q) (k : nat) (c : BasherChoice) (e : exn) :
  cooldown s = false ->
  time_time env w = (t, w1) ->
  Qlt_bool t (test_end_time f) = true ->
  random_below env (List.length (cases f)) w1 = (k, w2) ->
  nth_error (cases f) (k mod List.length (cases f)) = Some c ->
  invoke env c w2 = (Raised e, w3) ->
  run_loop env (S fuel) f s w = mkReply (Exc e) w3 [EvChoice; EvInvoke c].
Proof.
  intros Hc Ht Hearly Hk Hnth Hinv.
  apply while_true_exc. unfold iteration. apply bind_exc.
  unfold upto_sleep. apply bind_exc.
  unfold inject. rewrite Hc. cbn [negb].
  rewrite (bind_val _ _ _ _ _ _ (now_reads World Handle env w w1 t Ht)).
  rewrite Hearly. cbn [app].
  assert (random_choice env (cases f) w1 = mkReply (Val c) w2 [EvChoice])
    as Hchoice.
  { unfold random_choice. destruct (cases f) as [|c0 pool] eqn:Hcases;
      [destruct (k mod List.length (@nil BasherChoice))%nat;
       discriminate Hnth|].
    unfold bind, call_total, lift. rewrite Hk. cbn [result world calls].
    unfold Py.index. now rewrite Hnth. }
  rewrite (bind_val _ _ _ _ _ _ Hchoice).
  assert (call [EvInvoke c] (invoke env c) w2
          = mkReply (Exc e) w3 [@EvInvoke Handle c]) as Hcall
    by (unfold call; now rewrite Hinv).
  rewrite (bind_exc _ _ _ _ _ _ Hcall). reflexivity.
Qed.

End Starts.

(** ** Further runs on the scripted cluster *)

Lemma logcheck_count_bounded_witness :
  let env := Mock.env Mock.quiet in
  let f := Mock.frame [] [action_a] 1000 in
  let s := mkLoop ([] : list nat) 0%Q false 101 true in
  let w := Mock.start 0 [] in
  (forall n, result (iteration env f s w) = Val n ->
             0 <= logcheck_count (state_of n) <= 101)
  /\ (forall s', result (while_true env 3 f s w) = Val s' ->
                 0 <= logcheck_count s' <= 101).
Proof.
  cbv zeta.
  apply (logcheck_count_bounded Mock.World nat (Mock.env Mock.quiet)
           (Mock.frame [] [action_a] 1000) 3
           (mkLoop [] 0%Q false 101 true) (Mock.start 0 [])).
  simpl. lia.
Defined.

Lemma failure_sticks_witness :
  result (run_loop (Mock.env Mock.quiet) 1 (Mock.frame [] [action_a] 10)
            (mkLoop [] 0%Q true 0 false) (Mock.start 20 one_vm))
  = Val false
  /\ false = false.
Proof.
  split; [reflexivity|].
  apply (failure_sticks Mock.World nat (Mock.env Mock.quiet)
           (Mock.frame [] [action_a] 10) 1 (mkLoop [] 0%Q true 0 false)
           (Mock.start 20 one_vm) false); reflexivity.
Defined.

Lemma cooldown_pool_shrinks_witness :
  let s := mkLoop [1; 2]%nat 0%Q true 0 true in
  let s' := mkLoop ([] : list nat) 26%Q true 3 true in
  result (while_true (Mock.env second_call) 5 (Mock.frame [] [action_a] 10)
            s (Mock.start 20 []))
  = Val s'
  /\ cooldown s' = true
  /\ subseq (retry_list s') (retry_list s)
  /\ (List.length (retry_list s') <= List.length (retry_list s))%nat.
Proof.
  cbv zeta. split; [vm_compute; reflexivity|].
  apply (cooldown_pool_shrinks Mock.World nat (Mock.env second_call)
           (Mock.frame [] [action_a] 10) 5
           (mkLoop [1; 2]%nat 0%Q true 0 true)
           (mkLoop ([] : list nat) 26%Q true 3 true) (Mock.start 20 []));
    [reflexivity | vm_compute; reflexivity].
Defined.




Lemma config_error_before_loop_witness :
  let r := bash_openstack (Mock.env two_node_script) 10 manager0 []
             no_kwargs (Mock.start 0 one_vm) in
  result r = Exc AssertionError
  /\ calls r
     = [EvSsh "controller";
        EvExecuteOnAll ["xg11eth0"; "xg13eth0"] "rm -f /var/log/nova/*.log"].
Proof.
  cbv zeta.
  destruct (config_error_before_loop Mock.World nat
              (Mock.env two_node_script) 10 manager0 [] no_kwargs
              (Mock.start 0 one_vm) AssertionError eq_refl)
    as (_ & _ & Hcalls & Hres).
  split; [|exact Hcalls].
  apply (Hres tt (Mock.start 0 one_vm)). reflexivity.
Defined.

(** Every action fails. *)
Definition failing_actions : Mock.Script :=
  Mock.mkScript (fun _ _ => Returned false)
    (fun _ _ => Raised (PyException "NotFound")) (fun _ => "")
    (Returned "") (fun _ _ => Raised (PyException "quota exceeded")).

Lemma invoke_exception_propagates_witness :
  run_loop (Mock.env failing_actions) 1 (Mock.frame [] [action_a] 10)
    (mkLoop [] 0%Q false 0 true) (Mock.start 0 one_vm)
  = mkReply (Exc (PyException "quota exceeded"))
      (Mock.mkWorld 0 (fun _ => O) (fun _ => O) one_vm 1)
      [EvChoice; EvInvoke action_a].
Proof.
  apply (invoke_exception_propagates Mock.World nat (Mock.env failing_actions)
           (Mock.frame [] [action_a] 10) 0 (mkLoop [] 0%Q false 0 true)
           (Mock.start 0 one_vm) (Mock.start 0 one_vm)
           (Mock.mkWorld 0 (fun _ => O) (fun _ => O) one_vm 1)
           (Mock.mkWorld 0 (fun _ => O) (fun _ => O) one_vm 1)
           0%Q 0%nat action_a (PyException "quota exceeded")); reflexivity.
Defined.

(** Two servers, the first of them found twice before it is gone; the
    logs of every node show an error. *)
Definition slow_server_errors : Mock.Script :=
  Mock.mkScript (fun _ _ => Returned false)
    (fun id n => if (String.eqb id "vm1" && (n <? 2)%nat)%bool
                 then Returned tt else Raised (PyException "NotFound"))
    (fun _ => "nova-compute.log: ERROR boom")
    (Returned "") (fun _ _ => Returned None).

Definition vm1_then_vm4 : list (Event nat) :=
  [EvGetServer "vm1"; EvSleep 1%Q; EvGetServer "vm1"; EvSleep 1%Q;
   EvGetServer "vm1"; EvForget "vm1"; EvGetServer "vm4"; EvForget "vm4"].

Lemma slow_servers_vanish (t : Q) :
  exists w', vanish (Mock.env slow_server_errors) ["vm1"; "vm4"]
               (Mock.start t two_vms) w' vm1_then_vm4.
Proof.
  eexists.
  eapply (vanish_cons _ "vm1" ["vm4"] 2 (PyException "NotFound"));
    [lia | reflexivity | reflexivity |].
  eapply (vanish_cons _ "vm4" [] 0 (PyException "NotFound"));
    [lia | reflexivity | reflexivity |].
  apply vanish_nil.
Defined.

Lemma cooldown_exit_witness :
  let r := run_loop (Mock.env slow_server_errors) 1
             (Mock.frame ["compute1"] [action_a] 10)
             (mkLoop [] 0%Q true 0 true) (Mock.start 20 two_vms) in
  result r = Val false
  /\ calls r
     = [EvLogCheck; EvSsh "compute1"; EvDeleteServer "vm1";
        EvDeleteServer "vm4"] ++ vm1_then_vm4.
Proof.
  cbv zeta.
  destruct (cooldown_exit Mock.World nat (Mock.env slow_server_errors)
              (Mock.frame ["compute1"] [action_a] 10) 0
              (mkLoop [] 0%Q true 0 true) (mkLoop [] 0%Q true 0 true)
              (Mock.start 20 two_vms) (Mock.start 20 two_vms) []
              eq_refl eq_refl eq_refl) as (_ & _ & H).
  destruct (H true two_vms (Mock.start 20 two_vms) eq_refl eq_refl)
    as (_ & Hrun & _).
  destruct (slow_servers_vanish 20) as (w3 & Hgone).
  rewrite (Hrun (Mock.start 20 two_vms) w3 vm1_then_vm4 eq_refl Hgone).
  split; reflexivity.
Defined.

Lemma late_start_witness :
  let r := run_loop (Mock.env slow_server_errors) 1
             (Mock.frame ["compute1"] [action_a] 0)
             (mkLoop [] 0%Q false 0 true) (Mock.start 0 two_vms) in
  result r = Val false
  /\ calls r
     = [EvLogCheck; EvSsh "compute1"; EvDeleteServer "vm1";
        EvDeleteServer "vm4"] ++ vm1_then_vm4.
Proof.
  cbv zeta.
  destruct (late_start Mock.World nat (Mock.env slow_server_errors)
              (Mock.frame ["compute1"] [action_a] 0) 0
              (mkLoop [] 0%Q false 0 true) (Mock.start 0 two_vms)
              (Mock.start 0 two_vms) 0%Q eq_refl eq_refl eq_refl eq_refl)
    as (_ & _ & _ & H).
  destruct (H true two_vms (Mock.start 0 two_vms) eq_refl eq_refl)
    as (_ & Hrun & _).
  destruct (slow_servers_vanish 0) as (w3 & Hgone).
  rewrite (Hrun (Mock.start 0 two_vms) w3 vm1_then_vm4 eq_refl Hgone).
  split; reflexivity.
Defined.
